(** * NachOS MP3 scheduler (code/threads/scheduler.cc)

    A shallow embedding of the three-level feedback scheduler and the
    properties of its ready queues, its selection rules, its aging pass
    and its deferred destruction of finished threads.

    Threads are C++ objects reached through pointers that the three ready
    lists, [kernel->currentThread] and [toBeDestroyed] share.  The model
    keeps one store of thread records indexed by pointer, and the lists
    hold pointers into it. *)

From stdpp Require Import base option list gmap.
From Stdlib Require Import ZArith Lia.

Local Open Scope Z_scope.

(** ** Threads *)

(** Modelled from the spec: the status enumeration is declared in thread.h,
    which is not part of the sources; the scheduler itself only writes READY
    and RUNNING. *)
Inductive ThreadStatus : Set := READY | RUNNING | BLOCKED | TERMINATED.

(** interrupt.h: the two interrupt levels [Scheduler] asserts on. *)
Inductive IntStatus : Set := IntOff | IntOn.

Definition IntStatus_eqb (a b : IntStatus) : bool :=
  match a, b with
  | IntOff, IntOff | IntOn, IntOn => true
  | _, _ => false
  end.

(** Modelled from the spec: class Thread is declared in thread.h.  The record
    has the fields that scheduler.cc reads or writes through the accessors
    getID, setStatus, getPriority, getExecutionTime, incTickWaited,
    setTimeUsed, getLastTick and the public member [space].  The burst
    estimate is compared with and assigned to the [int] local [min_burst] of
    findNextL1, the priority to the [int] local [max_priority] of
    findNextL2: both are C ints, written as Z. *)
Record Thread : Type := mkThread {
  ID : Z;
  status : ThreadStatus;
  priority : Z;
  executionTime : Z;
  tickWaited : Z;
  timeUsed : Z;
  lastTick : Z;
  space : option nat
}.

Definition setStatus (st : ThreadStatus) (t : Thread) : Thread :=
  mkThread (ID t) st (priority t) (executionTime t) (tickWaited t)
           (timeUsed t) (lastTick t) (space t).

Definition setTimeUsed (v : Z) (t : Thread) : Thread :=
  mkThread (ID t) (status t) (priority t) (executionTime t) (tickWaited t)
           v (lastTick t) (space t).

(** Modelled from the spec: Thread::incTickWaited is defined in thread.cc,
    which is not part of the sources.  The spec names it
    incrementWaitTicks(n): it adds n to the accumulated wait counter. *)
Definition incTickWaited (n : Z) (t : Thread) : Thread :=
  mkThread (ID t) (status t) (priority t) (executionTime t) (tickWaited t + n)
           (timeUsed t) (lastTick t) (space t).

(** The methods of Thread and AddrSpace whose bodies the scheduler does not
    determine.  The spec leaves the burst estimator open, so it is an
    arbitrary function on the thread's record; the same holds for the user
    register and address-space hooks.  [CheckOverflow] answers whether the
    stack check passes (it is fatal otherwise). *)
Class ThreadExternals : Type := {
  calNewExecuteTime : Thread -> Thread;
  saveLastTick : Thread -> Thread;
  SaveUserState : Thread -> Thread;
  RestoreUserState : Thread -> Thread;
  AddrSpace_SaveState : Thread -> Thread;
  AddrSpace_RestoreState : Thread -> Thread;
  CheckOverflow : Thread -> bool
}.

(** ** Output *)

(** The lines the scheduler writes to [cout] or to [kernel->dumpfile]. *)
Inductive LogLine : Type :=
| LogInserting (tick id queue : Z)
| LogRemoved (tick id queue : Z)
| LogSelected (tick id : Z)
| LogReplaced (tick id executed : Z)
| LogReadyListContents
| LogQueueHeader (queue : Z)
| LogThreadPrint (id : Z).

(** ** Ready lists *)

(** Modelled from the spec: the template List<T> lives in lib/list.h, which
    is not part of the sources.  From section 4.1: a list is an ordered
    sequence in insertion order, Append puts an item at the tail, Remove
    takes one named item out, Front is the first item. *)
Module List_.

Definition Append (item : nat) (l : list nat) : list nat := l ++ [item].

Fixpoint Remove (item : nat) (l : list nat) : list nat :=
  match l with
  | [] => []
  | x :: l' => if decide (x = item) then l' else x :: Remove item l'
  end.

Definition IsEmpty (l : list nat) : bool :=
  match l with [] => true | _ :: _ => false end.

Definition Front (l : list nat) : option nat := head l.

End List_.

(** ** State *)

(** The fields of the Scheduler object ([L], [toBeDestroyed], [dirty]), the
    kernel globals it uses, the store of thread objects and the list of
    thread objects that were deleted, in order. *)
Record State : Type := mkState {
  L0 : list nat;
  L1 : list nat;
  L2 : list nat;
  L3 : list nat;
  toBeDestroyed : option nat;
  dirty : bool;
  currentThread : nat;
  level : IntStatus;
  totalTicks : Z;
  dumpLogToFile : bool;
  dumpfile : list LogLine;
  cout : list LogLine;
  heap : gmap nat Thread;
  deleted : list nat
}.

Definition with_L1 (v : list nat) (s : State) : State :=
  mkState (L0 s) v (L2 s) (L3 s) (toBeDestroyed s) (dirty s) (currentThread s)
          (level s) (totalTicks s) (dumpLogToFile s) (dumpfile s) (cout s)
          (heap s) (deleted s).

Definition with_L2 (v : list nat) (s : State) : State :=
  mkState (L0 s) (L1 s) v (L3 s) (toBeDestroyed s) (dirty s) (currentThread s)
          (level s) (totalTicks s) (dumpLogToFile s) (dumpfile s) (cout s)
          (heap s) (deleted s).

Definition with_L3 (v : list nat) (s : State) : State :=
  mkState (L0 s) (L1 s) (L2 s) v (toBeDestroyed s) (dirty s) (currentThread s)
          (level s) (totalTicks s) (dumpLogToFile s) (dumpfile s) (cout s)
          (heap s) (deleted s).

Definition with_toBeDestroyed (v : option nat) (s : State) : State :=
  mkState (L0 s) (L1 s) (L2 s) (L3 s) v (dirty s) (currentThread s)
          (level s) (totalTicks s) (dumpLogToFile s) (dumpfile s) (cout s)
          (heap s) (deleted s).

Definition with_dirty (v : bool) (s : State) : State :=
  mkState (L0 s) (L1 s) (L2 s) (L3 s) (toBeDestroyed s) v (currentThread s)
          (level s) (totalTicks s) (dumpLogToFile s) (dumpfile s) (cout s)
          (heap s) (deleted s).

Definition with_currentThread (v : nat) (s : State) : State :=
  mkState (L0 s) (L1 s) (L2 s) (L3 s) (toBeDestroyed s) (dirty s) v
          (level s) (totalTicks s) (dumpLogToFile s) (dumpfile s) (cout s)
          (heap s) (deleted s).

Definition with_dumpfile (v : list LogLine) (s : State) : State :=
  mkState (L0 s) (L1 s) (L2 s) (L3 s) (toBeDestroyed s) (dirty s)
          (currentThread s) (level s) (totalTicks s) (dumpLogToFile s) v
          (cout s) (heap s) (deleted s).

Definition with_cout (v : list LogLine) (s : State) : State :=
  mkState (L0 s) (L1 s) (L2 s) (L3 s) (toBeDestroyed s) (dirty s)
          (currentThread s) (level s) (totalTicks s) (dumpLogToFile s)
          (dumpfile s) v (heap s) (deleted s).

Definition with_heap (v : gmap nat Thread) (s : State) : State :=
  mkState (L0 s) (L1 s) (L2 s) (L3 s) (toBeDestroyed s) (dirty s)
          (currentThread s) (level s) (totalTicks s) (dumpLogToFile s)
          (dumpfile s) (cout s) v (deleted s).

Definition with_deleted (v : list nat) (s : State) : State :=
  mkState (L0 s) (L1 s) (L2 s) (L3 s) (toBeDestroyed s) (dirty s)
          (currentThread s) (level s) (totalTicks s) (dumpLogToFile s)
          (dumpfile s) (cout s) (heap s) v.

(** [L[i]] for the constant indices the code uses. *)
Definition L (i : nat) (s : State) : list nat :=
  match i with
  | 0%nat => L0 s
  | 1%nat => L1 s
  | 2%nat => L2 s
  | 3%nat => L3 s
  | _ => []
  end.

Definition with_L (i : nat) (v : list nat) (s : State) : State :=
  match i with
  | 1%nat => with_L1 v s
  | 2%nat => with_L2 v s
  | 3%nat => with_L3 v s
  | _ => s
  end.

(** ** The monad of scheduler code

    A run of scheduler code either completes with a value and a new state,
    stops at a failed ASSERT (or a fatal stack check), or dereferences a
    pointer to no live thread object. *)
Inductive outcome (A : Type) : Type :=
| Ok (a : A) (s : State)
| AssertFailed
| BadPointer.

Arguments Ok {A} a s.
Arguments AssertFailed {A}.
Arguments BadPointer {A}.

Definition Sched (A : Type) : Type := State -> outcome A.

Definition ret {A} (a : A) : Sched A := fun s => Ok a s.

Definition bind {A B} (m : Sched A) (f : A -> Sched B) : Sched B :=
  fun s => match m s with
           | Ok a s' => f a s'
           | AssertFailed => AssertFailed
           | BadPointer => BadPointer
           end.

Declare Scope sched_scope.
Delimit Scope sched_scope with sched.
Notation "x <- c1 ;; c2" := (bind c1 (fun x => c2))
  (at level 100, c1 at next level, right associativity) : sched_scope.
Notation "c1 ;;; c2" := (bind c1 (fun _ => c2))
  (at level 100, right associativity) : sched_scope.
Local Open Scope sched_scope.

Definition gets {A} (f : State -> A) : Sched A := fun s => Ok (f s) s.

Definition modify (f : State -> State) : Sched unit := fun s => Ok tt (f s).

Definition ASSERT (b : bool) : Sched unit :=
  fun s => if b then Ok tt s else AssertFailed.

(** [*p] for reading. *)
Definition deref (p : nat) : Sched Thread :=
  fun s => match heap s !! p with
           | Some t => Ok t s
           | None => BadPointer
           end.

(** [p->method()] for a method that updates the object. *)
Definition call (p : nat) (method : Thread -> Thread) : Sched unit :=
  fun s => match heap s !! p with
           | Some t => Ok tt (with_heap (<[p := method t]> (heap s)) s)
           | None => BadPointer
           end.

(** [delete p]. *)
Definition delete_thread (p : nat) : Sched unit :=
  fun s => match heap s !! p with
           | Some _ =>
               Ok tt (with_deleted (deleted s ++ [p])
                        (with_heap (delete p (heap s)) s))
           | None => BadPointer
           end.

(** The [if (kernel->dumpLogToFile) kernel->dumpfile << ... else cout << ...]
    pattern. *)
Definition emit (line : LogLine) : Sched unit :=
  fun s => if dumpLogToFile s
           then Ok tt (with_dumpfile (dumpfile s ++ [line]) s)
           else Ok tt (with_cout (cout s ++ [line]) s).

Definition L_Append (i : nat) (item : nat) : Sched unit :=
  modify (fun s => with_L i (List_.Append item (L i s)) s).

Definition L_Remove (i : nat) (item : nat) : Sched unit :=
  modify (fun s => with_L i (List_.Remove item (L i s)) s).

(** ** Scheduler *)

Section Scheduler.

Context `{ThreadExternals}.

(** Scheduler::Scheduler, given the kernel globals and the thread store the
    scheduler is created in. *)
Definition Scheduler_new (cur : nat) (lvl : IntStatus) (ticks : Z)
    (toFile : bool) (h : gmap nat Thread) : State :=
  mkState [] [] [] [] None false cur lvl ticks toFile [] [] h [].

(** The queue number that the log lines print: [3 - getPriority() / 50],
    with C's division. *)
Definition queue_printed (t : Thread) : Z := 3 - (priority t ÷ 50).

(** Scheduler::ReadyToRun.  The DEBUG line is left out. *)
Definition ReadyToRun (thread : nat) : Sched unit :=
  lvl <- gets level ;;
  ASSERT (IntStatus_eqb lvl IntOff) ;;;
  call thread (setStatus READY) ;;;
  t <- deref thread ;;
  tick <- gets totalTicks ;;
  emit (LogInserting tick (ID t) (queue_printed t)) ;;;
  if priority t >=? 100 then L_Append 1 thread
  else if priority t >=? 50 then L_Append 2 thread
  else L_Append 3 thread.

(** A [for (ListIterator<Thread*> it(l); !it.IsDone(); it.Next())] loop whose
    body has no local variables to carry. *)
Fixpoint forEach (it : list nat) (body : nat -> Sched unit) : Sched unit :=
  match it with
  | [] => ret tt
  | item :: it' => body item ;;; forEach it' body
  end.

(** Scheduler::CheckToBeDestroyed *)
Definition CheckToBeDestroyed : Sched unit :=
  tbd <- gets toBeDestroyed ;;
  match tbd with
  | Some p => delete_thread p ;;; modify (with_toBeDestroyed None)
  | None => ret tt
  end.

(** Scheduler::Run up to the call of SWITCH.  The DEBUG lines are left out. *)
Definition Run_dispatch (nextThread : nat) (finishing : bool) : Sched unit :=
  oldThread <- gets currentThread ;;
  tick <- gets totalTicks ;;
  tn <- deref nextThread ;;
  emit (LogSelected tick (ID tn)) ;;;
  to <- deref oldThread ;;
  emit (LogReplaced tick (ID to) (lastTick to)) ;;;
  lvl <- gets level ;;
  ASSERT (IntStatus_eqb lvl IntOff) ;;;
  (if finishing
   then tbd <- gets toBeDestroyed ;;
        ASSERT (bool_decide (tbd = None)) ;;;
        modify (with_toBeDestroyed (Some oldThread))
   else ret tt) ;;;
  to <- deref oldThread ;;
  (if bool_decide (space to = None) then ret tt
   else call oldThread SaveUserState ;;;
        call oldThread AddrSpace_SaveState) ;;;
  to <- deref oldThread ;;
  ASSERT (CheckOverflow to) ;;;
  modify (with_currentThread nextThread) ;;;
  call nextThread (setStatus RUNNING).

(** Scheduler::Run from the return of SWITCH on: the thread [oldThread] of
    this invocation of Run has been switched back to. *)
Definition Run_resume (oldThread : nat) : Sched unit :=
  lvl <- gets level ;;
  ASSERT (IntStatus_eqb lvl IntOff) ;;;
  CheckToBeDestroyed ;;;
  to <- deref oldThread ;;
  if bool_decide (space to = None) then ret tt
  else call oldThread RestoreUserState ;;;
       call oldThread AddrSpace_RestoreState.


(** Modelled from the spec: ThreadPrint is declared in thread.h, which is
    not part of the sources, and List::Apply, of lib/list.h, applies it to
    every item in the order of the list.  By section 4.2 Print is a
    read-only enumeration of the contents of the bands: ThreadPrint writes
    one line that names the thread and changes nothing else. *)
Definition ThreadPrint (item : nat) : Sched unit :=
  t <- deref item ;;
  modify (fun s => with_cout (cout s ++ [LogThreadPrint (ID t)]) s).

Definition cout_line (line : LogLine) : Sched unit :=
  modify (fun s => with_cout (cout s ++ [line]) s).

(** Scheduler::Print *)
Definition Print : Sched unit :=
  cout_line LogReadyListContents ;;;
  cout_line (LogQueueHeader 1) ;;;
  l1 <- gets (L 1) ;; forEach l1 ThreadPrint ;;;
  cout_line (LogQueueHeader 2) ;;;
  l2 <- gets (L 2) ;; forEach l2 ThreadPrint ;;;
  cout_line (LogQueueHeader 3) ;;;
  l3 <- gets (L 3) ;; forEach l3 ThreadPrint.

(** The first and the third loop of maintainQueues: every item of the list
    scanned whose priority is at least [bound] is logged, appended to
    [L[dst]] and to the temporary list, and the flag is raised.  The loop
    carries the temporary list and the flag. *)
Fixpoint promote_loop (src dst : nat) (bound : Z) (it : list nat)
    (temp : list nat) (flag : bool) : Sched (list nat * bool) :=
  match it with
  | [] => ret (temp, flag)
  | item :: it' =>
      t <- deref item ;;
      if priority t >=? bound
      then tick <- gets totalTicks ;;
           emit (LogRemoved tick (ID t) (Z.of_nat src)) ;;;
           emit (LogInserting tick (ID t) (queue_printed t)) ;;;
           L_Append dst item ;;;
           promote_loop src dst bound it' (List_.Append item temp) true
      else promote_loop src dst bound it' temp flag
  end.

(** Scheduler::maintainQueues *)
Definition maintainQueues : Sched Z :=
  l3 <- gets (L 3) ;;
  r1 <- promote_loop 3 2 50 l3 [] false ;;
  let '(temp1, L2_new) := r1 in
  forEach temp1 (L_Remove 3) ;;;
  l2 <- gets (L 2) ;;
  r2 <- promote_loop 2 1 100 l2 [] false ;;
  let '(temp2, L1_new) := r2 in
  forEach temp2 (L_Remove 2) ;;;
  if L1_new then ret 1
  else if L2_new then ret 2
  else ret 0.

(** Scheduler::incTickToThreads *)
Definition incTickToThreads (amount : Z) : Sched unit :=
  forEach [1; 2; 3]%nat (fun i =>
    l <- gets (L i) ;;
    forEach l (fun item =>
      cur <- gets currentThread ;;
      if bool_decide (item <> cur)
      then call item (incTickWaited 1)
      else ret tt)).

(** Scheduler::preprocessThreads *)
Definition preprocessThreads : Sched unit :=
  cur <- gets currentThread ;;
  call cur calNewExecuteTime ;;;
  cur <- gets currentThread ;;
  call cur saveLastTick ;;;
  cur <- gets currentThread ;;
  call cur (setTimeUsed 0).

(** Scheduler::findNextL1 *)
Fixpoint findNextL1_loop (it : list nat) (min_burst : Z)
    (result : option nat) : Sched (option nat) :=
  match it with
  | [] => ret result
  | item :: it' =>
      t <- deref item ;;
      if executionTime t <? min_burst
      then findNextL1_loop it' (executionTime t) (Some item)
      else findNextL1_loop it' min_burst result
  end.

Definition findNextL1 : Sched (option nat) :=
  l <- gets (L 1) ;; findNextL1_loop l 0x7fffffff None.

(** Scheduler::findNextL2 *)
Fixpoint findNextL2_loop (it : list nat) (max_priority : Z)
    (result : option nat) : Sched (option nat) :=
  match it with
  | [] => ret result
  | item :: it' =>
      t <- deref item ;;
      if priority t >? max_priority
      then findNextL2_loop it' (priority t) (Some item)
      else findNextL2_loop it' max_priority result
  end.

Definition findNextL2 : Sched (option nat) :=
  l <- gets (L 2) ;; findNextL2_loop l (-1) None.

(** Scheduler::findNextL3 *)
Definition findNextL3 : Sched (option nat) :=
  l <- gets (L 3) ;;
  if List_.IsEmpty l then ret None else ret (List_.Front l).

(** The body shared by the three branches of findNext once a band has given
    [result]: remove it from [L[i]], log the removal, return it. *)
Definition take_from (i : nat) (result : nat) : Sched (option nat) :=
  L_Remove i result ;;;
  tick <- gets totalTicks ;;
  t <- deref result ;;
  emit (LogRemoved tick (ID t) (Z.of_nat i)) ;;;
  ret (Some result).

(** The if / else-if chain of findNext that follows the call of
    preprocessThreads. *)
Definition findNext_bands : Sched (option nat) :=
  r1 <- findNextL1 ;;
  match r1 with
  | Some result => take_from 1 result
  | None =>
      r2 <- findNextL2 ;;
      match r2 with
      | Some result => take_from 2 result
      | None =>
          r3 <- findNextL3 ;;
          match r3 with
          | Some result => take_from 3 result
          | None => ret None
          end
      end
  end.

(** Scheduler::findNext *)
Definition findNext : Sched (option nat) :=
  l1 <- gets (L 1) ;; l2 <- gets (L 2) ;; l3 <- gets (L 3) ;;
  if List_.IsEmpty l1 && List_.IsEmpty l2 && List_.IsEmpty l3
  then ret None
  else preprocessThreads ;;; findNext_bands.

(** Scheduler::FindNextToRun *)
Definition FindNextToRun : Sched (option nat) :=
  lvl <- gets level ;;
  ASSERT (IntStatus_eqb lvl IntOff) ;;;
  findNext.

(** Scheduler::getDirty and Scheduler::setDirty *)
Definition getDirty (s : State) : bool := dirty s.

Definition setDirty (d : bool) : Sched unit := modify (with_dirty d).

(** *** Calls from the rest of the kernel *)

(** One call of the scheduler's interface; Run is entered up to SWITCH and
    resumed after it. *)
Inductive SchedulerCall : Type :=
| CallReadyToRun (thread : nat)
| CallFindNextToRun
| CallRunDispatch (nextThread : nat) (finishing : bool)
| CallRunResume (oldThread : nat)
| CallCheckToBeDestroyed
| CallPrint
| CallMaintainQueues
| CallIncTickToThreads (amount : Z)
| CallSetDirty (d : bool).

Definition perform (c : SchedulerCall) : Sched unit :=
  match c with
  | CallReadyToRun thread => ReadyToRun thread
  | CallFindNextToRun => FindNextToRun ;;; ret tt
  | CallRunDispatch nextThread finishing => Run_dispatch nextThread finishing
  | CallRunResume oldThread => Run_resume oldThread
  | CallCheckToBeDestroyed => CheckToBeDestroyed
  | CallPrint => Print
  | CallMaintainQueues => maintainQueues ;;; ret tt
  | CallIncTickToThreads amount => incTickToThreads amount
  | CallSetDirty d => setDirty d
  end.

Fixpoint perform_all (cs : list SchedulerCall) : Sched unit :=
  match cs with
  | [] => ret tt
  | c :: cs' => perform c ;;; perform_all cs'
  end.

(** ** Vocabulary of the properties *)

(** The record the outgoing thread has when Run checks its stack. *)
Definition saved (t : Thread) : Thread :=
  if bool_decide (space t = None) then t
  else AddrSpace_SaveState (SaveUserState t).

(** The record preprocessThreads leaves in the current thread. *)
Definition closed_out (t : Thread) : Thread :=
  setTimeUsed 0 (saveLastTick (calNewExecuteTime t)).

(** The index of the list that the if / else-if chain of ReadyToRun appends
    a thread of the given priority to. *)
Definition band_of_priority (prio : Z) : nat :=
  if prio >=? 100 then 1%nat else if prio >=? 50 then 2%nat else 3%nat.

(** The state in which findNext scans the bands: the one preprocessThreads
    leaves. *)
Definition at_selection (s : State) : State :=
  match heap s !! currentThread s with
  | Some t => with_heap (<[currentThread s := closed_out t]> (heap s)) s
  | None => s
  end.

End Scheduler.

(** [p->getPriority()] and [p->getExecutionTime()] in a state. *)
Definition getPriority (s : State) (p : nat) : Z :=
  match heap s !! p with Some t => priority t | None => 0 end.

Definition getExecutionTime (s : State) (p : nat) : Z :=
  match heap s !! p with Some t => executionTime t | None => 0 end.

Definition live (s : State) (p : nat) : Prop := is_Some (heap s !! p).

(** All entries of the three bands, band 1 first. *)
Definition bands (s : State) : list nat := L1 s ++ L2 s ++ L3 s.

(** Every pointer held by a band is a live thread object. *)
Definition bands_live (s : State) : Prop := Forall (live s) (bands s).

(** Position [i] holds [p], no entry has a smaller key and every entry before
    [i] has a greater one: [p] is the first-inserted among the least. *)
Definition first_least (key : nat -> Z) (l : list nat) (i p : nat) : Prop :=
  l !! i = Some p /\
  (forall j q, l !! j = Some q -> key p <= key q) /\
  (forall j q, l !! j = Some q -> (j < i)%nat -> key p < key q).

Definition first_greatest (key : nat -> Z) (l : list nat) (i p : nat) : Prop :=
  l !! i = Some p /\
  (forall j q, l !! j = Some q -> key q <= key p) /\
  (forall j q, l !! j = Some q -> (j < i)%nat -> key q < key p).

(** The three ways findNext_bands, run from [s], ends with value [r] in
    state [s']: band 1 gave its first-inserted entry of least estimate;
    band 1 gave nothing and band 2 gave its first-inserted entry of greatest
    priority; bands 1 and 2 gave nothing and band 3 gave its front, if it
    has one. *)
Definition from_band1 (s : State) (r : option nat) (s' : State) : Prop :=
  exists i p,
    r = Some p /\
    first_least (getExecutionTime s) (L1 s) i p /\
    getExecutionTime s p < 0x7fffffff /\
    L1 s' = delete i (L1 s) /\ L2 s' = L2 s /\ L3 s' = L3 s.

Definition band1_gives_nothing (s : State) : Prop :=
  forall q, q ∈ L1 s -> 0x7fffffff <= getExecutionTime s q.

Definition band2_gives_nothing (s : State) : Prop :=
  forall q, q ∈ L2 s -> getPriority s q <= -1.

Definition from_band2 (s : State) (r : option nat) (s' : State) : Prop :=
  band1_gives_nothing s /\
  exists i p,
    r = Some p /\
    first_greatest (getPriority s) (L2 s) i p /\
    -1 < getPriority s p /\
    L2 s' = delete i (L2 s) /\ L1 s' = L1 s /\ L3 s' = L3 s.

Definition from_band3 (s : State) (r : option nat) (s' : State) : Prop :=
  band1_gives_nothing s /\ band2_gives_nothing s /\
  r = head (L3 s) /\
  L3 s' = tail (L3 s) /\ L1 s' = L1 s /\ L2 s' = L2 s.

(** A call of FindNextToRun from [s] that applies a bookkeeping pass to every
    ready thread and closes out the running thread: the call completes, the
    record of every thread in the bands other than the current one has been
    written (a pass that does any accounting changes it), and the used time
    of the current thread is zero. *)
Definition books_and_closes_out `{ThreadExternals} (s : State) : Prop :=
  exists r s',
    FindNextToRun s = Ok r s' /\
    (forall p, p ∈ bands s -> p <> currentThread s ->
               heap s' !! p <> heap s !! p) /\
    (exists t, heap s' !! currentThread s = Some t /\ timeUsed t = 0).

(** The scan of findNextL1 and, with keys negated, of findNextL2, on keys
    that were already read. *)
Fixpoint scan_less (key : nat -> Z) (it : list nat) (best : Z)
    (result : option nat) : option nat :=
  match it with
  | [] => result
  | item :: it' =>
      if key item <? best then scan_less key it' (key item) (Some item)
      else scan_less key it' best result
  end.

(** The store after the inner loop of incTickToThreads went through [it]. *)
Definition tick_store (cur : nat) (it : list nat) (h : gmap nat Thread)
    : gmap nat Thread :=
  foldl (fun h item =>
           if bool_decide (item <> cur) then alter (incTickWaited 1) item h
           else h) h it.

(** The value of the dirty flag after calls [cs], starting from [d]. *)
Definition dirty_after (cs : list SchedulerCall) (d : bool) : bool :=
  foldl (fun d c => match c with CallSetDirty d' => d' | _ => d end) d cs.

(** [m] leaves the component [f] of the state as it was. *)
Definition keeps {A X} (f : State -> X) (m : Sched A) : Prop :=
  forall s a s', m s = Ok a s' -> f s' = f s.

(** [m], run from [s], completes, and its value and final state satisfy
    [Q]. *)
Definition wp {A} (m : Sched A) (Q : A -> State -> Prop) (s : State) : Prop :=
  exists a s', m s = Ok a s' /\ Q a s'.

(** ** Sample threads and states *)

(** An estimator of the kind the spec suggests: the mean of the previous
    estimate and the time just used; the last tick is the time used; the
    user-state hooks leave the record alone and the stack check passes. *)
Definition sample_externals : ThreadExternals := {|
  calNewExecuteTime t :=
    mkThread (ID t) (status t) (priority t)
             ((executionTime t + timeUsed t) `quot` 2) (tickWaited t)
             (timeUsed t) (lastTick t) (space t);
  saveLastTick t :=
    mkThread (ID t) (status t) (priority t) (executionTime t) (tickWaited t)
             (timeUsed t) (timeUsed t) (space t);
  SaveUserState t := t;
  RestoreUserState t := t;
  AddrSpace_SaveState t := t;
  AddrSpace_RestoreState t := t;
  CheckOverflow _ := true
|}.

(** A kernel thread with the given identity, priority and burst estimate. *)
Definition thread_of (id prio est : Z) : Thread :=
  mkThread id READY prio est 0 0 0 None.

(** The running thread of the samples: it has used 5 ticks. *)
Definition main_thread : Thread := mkThread 0 RUNNING 0 0 0 5 0 None.

Definition state_of (l1 l2 l3 : list nat) (h : gmap nat Thread) : State :=
  mkState [] l1 l2 l3 None false 0%nat IntOff 100 false [] [] h [].

(** Thread 1 was admitted at priority 120 with the largest burst estimate an
    int holds; thread 2 waits in band 2. *)
Definition sentinel_heap : gmap nat Thread :=
  <[2%nat := thread_of 2 70 3]>
    (<[1%nat := thread_of 1 120 0x7fffffff]> (<[0%nat := main_thread]> ∅)).

Definition sentinel_state : State := state_of [1%nat] [2%nat] [] sentinel_heap.

Definition sentinel_alone_state : State :=
  state_of [1%nat] [] []
    (<[1%nat := thread_of 1 120 0x7fffffff]> (<[0%nat := main_thread]> ∅)).

(** Threads whose priorities rose since they were placed: 3 and 5 sit in
    band 3 at priorities 60 and 130, 4 in band 2 at 110, 6 in band 3 at 10,
    7 in band 2 at 70, 8 in band 1 at 20. *)
Definition aged_heap : gmap nat Thread :=
  <[8%nat := thread_of 8 20 1]>
    (<[7%nat := thread_of 7 70 1]>
       (<[6%nat := thread_of 6 10 1]>
          (<[5%nat := thread_of 5 130 1]>
             (<[4%nat := thread_of 4 110 1]>
                (<[3%nat := thread_of 3 60 1]>
                   (<[0%nat := main_thread]> ∅)))))).

Definition aged_state : State :=
  state_of [8%nat] [7%nat; 4%nat] [3%nat; 6%nat; 5%nat] aged_heap.

(** The scenario of the spec: A (priority 120), B (70, estimate 5) and
    C (70, estimate 3), not yet admitted. *)
Definition scenario_heap : gmap nat Thread :=
  <[3%nat := mkThread 3 BLOCKED 70 3 0 0 0 None]>
    (<[2%nat := mkThread 2 BLOCKED 70 5 0 0 0 None]>
       (<[1%nat := mkThread 1 BLOCKED 120 9 0 0 0 None]>
          (<[0%nat := main_thread]> ∅))).

Definition scenario_state : State := state_of [] [] [] scenario_heap.

(** One thread of priority 10 waits in band 3. *)
Definition waiting_state : State :=
  state_of [] [] [1%nat]
    (<[1%nat := thread_of 1 10 4]> (<[0%nat := main_thread]> ∅)).

(** No thread is ready. *)
Definition idle_state : State :=
  state_of [] [] [] (<[0%nat := main_thread]> ∅).

(** ** Vocabulary of the further properties *)

(** The number of entries of [l] that hold the pointer [p]. *)
Definition entries (p : nat) (l : list nat) : nat :=
  length (filter (fun q => q = p) l).

(** The state after [emit line]. *)
Definition emitted (line : LogLine) (s : State) : State :=
  if dumpLogToFile s then with_dumpfile (dumpfile s ++ [line]) s
  else with_cout (cout s ++ [line]) s.

(** The calls that work on the ready lists and on the threads in them. *)
Definition queue_call (c : SchedulerCall) : bool :=
  match c with
  | CallReadyToRun _ | CallFindNextToRun | CallPrint | CallMaintainQueues
  | CallIncTickToThreads _ => true
  | _ => false
  end.

Section MoreVocabulary.

Context `{ThreadExternals}.


(** [n] calls of FindNextToRun in a row, as an idle loop that empties the
    ready lists makes them; the values returned, in order. *)
Fixpoint drain (n : nat) : Sched (list (option nat)) :=
  match n with
  | O => ret []
  | S n' => r <- FindNextToRun ;; rs <- drain n' ;; ret (r :: rs)
  end.

End MoreVocabulary.

(** Band 1 is empty; in band 2 thread 2 has priority 70 and threads 3 and
    4, inserted in that order, both have priority 90; threads 5 and 6 wait
    in band 3. *)
Definition tie_state : State :=
  state_of [] [2%nat; 3%nat; 4%nat] [5%nat; 6%nat]
    (<[6%nat := thread_of 6 10 1]>
       (<[5%nat := thread_of 5 20 1]>
          (<[4%nat := thread_of 4 90 2]>
             (<[3%nat := thread_of 3 90 8]>
                (<[2%nat := thread_of 2 70 1]>
                   (<[0%nat := main_thread]> ∅)))))).

(** Band 1 holds thread 1 with estimate 7 and threads 2 and 3, inserted in
    that order, both with estimate 3; thread 4 waits in band 2. *)
Definition burst_state : State :=
  state_of [1%nat; 2%nat; 3%nat] [4%nat] []
    (<[4%nat := thread_of 4 70 1]>
       (<[3%nat := thread_of 3 140 3]>
          (<[2%nat := thread_of 2 100 3]>
             (<[1%nat := thread_of 1 120 7]>
                (<[0%nat := main_thread]> ∅))))).

(** Threads 1, 2 and 3 wait in band 3, in that order. *)
Definition fifo_state : State :=
  state_of [] [] [1%nat; 2%nat; 3%nat]
    (<[3%nat := thread_of 3 30 1]>
       (<[2%nat := thread_of 2 10 9]>
          (<[1%nat := thread_of 1 20 5]> (<[0%nat := main_thread]> ∅)))).

(** Thread 4 is listed in band 2 and in band 3. *)
Definition doubled_state : State :=
  state_of [] [4%nat] [4%nat; 6%nat] aged_heap.


(** [idle_state] with interrupts enabled. *)
Definition enabled_state : State :=
  mkState [] [] [] [] None false 0%nat IntOn 100 false [] []
          (<[0%nat := main_thread]> ∅) [].


(** Thread 1 waits in the pending-destruction slot. *)
Definition doomed_state : State :=
  with_toBeDestroyed (Some 1%nat) waiting_state.

(** [aged_state] after the aging pass. *)
Definition settled_state : State :=
  match maintainQueues aged_state with
  | Ok _ s => s
  | _ => aged_state
  end.

(** * Proofs *)

(** ** Components a piece of scheduler code leaves alone *)

Section Frames.

Context {X : Type} (f : State -> X).

Lemma keeps_ret {A} (a : A) : keeps f (ret a).
Proof. intros s a' s' E. inversion E. reflexivity. Qed.

Lemma keeps_bind {A B} (m : Sched A) (k : A -> Sched B) :
  keeps f m -> (forall a, keeps f (k a)) -> keeps f (bind m k).
Proof.
  intros Hm Hk s b s' E. unfold bind in E.
  destruct (m s) as [a s1| |] eqn:E1; try discriminate.
  rewrite (Hk a _ _ _ E). exact (Hm _ _ _ E1).
Qed.

Lemma keeps_gets {A} (g : State -> A) : keeps f (gets g).
Proof. intros s a s' E. inversion E. reflexivity. Qed.

Lemma keeps_ASSERT b : keeps f (ASSERT b).
Proof. intros s a s' E. unfold ASSERT in E. destruct b; inversion E. reflexivity. Qed.

Lemma keeps_deref p : keeps f (deref p).
Proof.
  intros s a s' E. unfold deref in E.
  destruct (heap s !! p); inversion E. reflexivity.
Qed.

Lemma keeps_modify g : (forall s, f (g s) = f s) -> keeps f (modify g).
Proof. intros Hg s a s' E. inversion E. apply Hg. Qed.

Lemma keeps_call p method :
  (forall h s, f (with_heap h s) = f s) -> keeps f (call p method).
Proof.
  intros Hh s a s' E. unfold call in E.
  destruct (heap s !! p); inversion E. apply Hh.
Qed.

Lemma keeps_delete_thread p :
  (forall h s, f (with_heap h s) = f s) ->
  (forall v s, f (with_deleted v s) = f s) ->
  keeps f (delete_thread p).
Proof.
  intros Hh Hd s a s' E. unfold delete_thread in E.
  destruct (heap s !! p); inversion E. rewrite Hd. apply Hh.
Qed.

Lemma keeps_emit line :
  (forall v s, f (with_dumpfile v s) = f s) ->
  (forall v s, f (with_cout v s) = f s) ->
  keeps f (emit line).
Proof.
  intros Hd Hc s a s' E. unfold emit in E.
  destruct (dumpLogToFile s); inversion E; [apply Hd | apply Hc].
Qed.

Lemma keeps_forEach it body :
  (forall item, keeps f (body item)) -> keeps f (forEach it body).
Proof.
  intros Hb. induction it as [|item it IH]; simpl.
  - apply keeps_ret.
  - apply keeps_bind; [apply Hb | intros _; exact IH].
Qed.

End Frames.

(** ** Running scheduler code to completion *)

Section WP.

Context {A : Type} (Q : A -> State -> Prop) (s : State).

Lemma wp_ret a : Q a s -> wp (ret a) Q s.
Proof. intros HQ. exists a, s. split; [reflexivity | exact HQ]. Qed.

Lemma wp_bind {B} (m : Sched B) (k : B -> Sched A) :
  wp m (fun b s1 => wp (k b) Q s1) s -> wp (bind m k) Q s.
Proof.
  intros (b & s1 & E1 & a & s2 & E2 & HQ).
  exists a, s2. split; [| exact HQ]. unfold bind. rewrite E1. exact E2.
Qed.

Lemma wp_gets (f : State -> A) : Q (f s) s -> wp (gets f) Q s.
Proof. apply wp_ret. Qed.

End WP.

Section WPunit.

Context (Q : unit -> State -> Prop) (s : State).

Lemma wp_modify f : Q tt (f s) -> wp (modify f) Q s.
Proof. intros HQ. exists tt, (f s). split; [reflexivity | exact HQ]. Qed.

Lemma wp_ASSERT b : b = true -> Q tt s -> wp (ASSERT b) Q s.
Proof. intros -> HQ. exists tt, s. split; [reflexivity | exact HQ]. Qed.

Lemma wp_call p method t :
  heap s !! p = Some t ->
  Q tt (with_heap (<[p := method t]> (heap s)) s) ->
  wp (call p method) Q s.
Proof.
  intros Hp HQ. eexists tt, _. split; [| exact HQ].
  unfold call. rewrite Hp. reflexivity.
Qed.

Lemma wp_delete_thread p t :
  heap s !! p = Some t ->
  Q tt (with_deleted (deleted s ++ [p]) (with_heap (delete p (heap s)) s)) ->
  wp (delete_thread p) Q s.
Proof.
  intros Hp HQ. eexists tt, _. split; [| exact HQ].
  unfold delete_thread. rewrite Hp. reflexivity.
Qed.

Lemma wp_emit_file line :
  dumpLogToFile s = true ->
  Q tt (with_dumpfile (dumpfile s ++ [line]) s) ->
  wp (emit line) Q s.
Proof.
  intros Hd HQ. eexists tt, _. split; [| exact HQ].
  unfold emit. rewrite Hd. reflexivity.
Qed.

Lemma wp_emit_cout line :
  dumpLogToFile s = false ->
  Q tt (with_cout (cout s ++ [line]) s) ->
  wp (emit line) Q s.
Proof.
  intros Hd HQ. eexists tt, _. split; [| exact HQ].
  unfold emit. rewrite Hd. reflexivity.
Qed.

End WPunit.

Lemma wp_deref (Q : Thread -> State -> Prop) s p t :
  heap s !! p = Some t -> Q t s -> wp (deref p) Q s.
Proof.
  intros Hp HQ. exists t, s. split; [| exact HQ].
  unfold deref. rewrite Hp. reflexivity.
Qed.

Lemma wp_mono {A} (m : Sched A) (Q Q' : A -> State -> Prop) s :
  wp m Q s -> (forall a s', Q a s' -> Q' a s') -> wp m Q' s.
Proof. intros (a & s' & E & HQ) HQQ. exists a, s'. auto. Qed.

(** Reduces the components of a state that was built by the [with_]
    updates. *)
Ltac proj_simpl :=
  cbn [L0 L1 L2 L3 toBeDestroyed dirty currentThread level totalTicks
       dumpLogToFile dumpfile cout heap deleted
       with_L1 with_L2 with_L3 with_toBeDestroyed with_dirty
       with_currentThread with_dumpfile with_cout with_heap with_deleted
       L with_L] in *.

(** One primitive of the code under [wp]. *)
Ltac wp_step :=
  lazymatch goal with
  | |- wp (bind _ _) _ _ => apply wp_bind
  | |- wp (ret _) _ _ => apply wp_ret
  | |- wp (gets _) _ _ => apply wp_gets
  | |- wp (modify _) _ _ => apply wp_modify
  | |- wp (ASSERT _) _ _ => apply wp_ASSERT; [try reflexivity |]
  | |- wp (deref _) _ _ => eapply wp_deref; [try eassumption |]
  | |- wp (call _ _) _ _ => eapply wp_call; [try eassumption |]
  | |- wp (delete_thread _) _ _ => eapply wp_delete_thread; [try eassumption |]
  | |- wp (emit _) _ _ =>
      first [ apply wp_emit_file; [proj_simpl; assumption |]
            | apply wp_emit_cout; [proj_simpl; assumption |] ]
  | |- wp (L_Append _ _) _ _ => apply wp_modify
  | |- wp (L_Remove _ _) _ _ => apply wp_modify
  end; proj_simpl.

(** ** Ready lists *)

Lemma Remove_delete (l : list nat) i p :
  l !! i = Some p ->
  (forall j, (j < i)%nat -> l !! j <> Some p) ->
  List_.Remove p l = delete i l.
Proof.
  revert i. induction l as [|x l IH]; intros i Hi Hbefore; [done |].
  destruct i as [|i]; simpl in *.
  - inversion Hi; subst. by rewrite decide_True.
  - rewrite decide_False.
    + f_equal. apply IH; [done |]. intros j Hj. apply (Hbefore (S j)). lia.
    + intros ->. by apply (Hbefore 0%nat); [lia |].
Qed.

Lemma Remove_all_head (x : nat) (rm l : list nat) :
  x ∉ rm ->
  foldl (fun l p => List_.Remove p l) (x :: l) rm
  = x :: foldl (fun l p => List_.Remove p l) l rm.
Proof.
  revert l. induction rm as [|p rm IH]; intros l Hx; [done |].
  apply not_elem_of_cons in Hx as [Hne Hx]. simpl.
  rewrite decide_False by done. by apply IH.
Qed.

Lemma Remove_filter (P : nat -> Prop) `{forall x, Decision (P x)}
    (l : list nat) :
  foldl (fun l p => List_.Remove p l) l (filter P l)
  = filter (fun x => ~ P x) l.
Proof.
  induction l as [|x l IH]; [done |].
  destruct (decide (P x)) as [Hx | Hx].
  - rewrite (filter_cons_True P) by done.
    rewrite (filter_cons_False (fun x => ~ P x)) by tauto.
    simpl. by rewrite decide_True.
  - rewrite (filter_cons_False P) by done.
    rewrite (filter_cons_True (fun x => ~ P x)) by done.
    rewrite Remove_all_head; [by rewrite IH |].
    intros Hin. apply list_elem_of_filter in Hin. tauto.
Qed.

Lemma nonempty_elem (l : list nat) : l <> [] <-> exists p, p ∈ l.
Proof.
  destruct l as [|p l].
  - split; [done |]. intros [p Hp]. by apply elem_of_nil in Hp.
  - split; [| done]. intros _. exists p. left.
Qed.

(** ** The scans *)

Lemma scan_less_spec key it :
  forall best result,
    (scan_less key it best result = result /\
     forall q, q ∈ it -> best <= key q) \/
    (exists i p, scan_less key it best result = Some p /\
                 first_least key it i p /\ key p < best).
Proof.
  induction it as [|x it IH]; intros best result; simpl.
  - left. split; [done |]. intros q Hq. by apply elem_of_nil in Hq.
  - destruct (Z.ltb_spec (key x) best) as [Hlt | Hge].
    + right. destruct (IH (key x) (Some x)) as [[E Hall] | (i & p & E & Hfl & Hp)].
      * exists 0%nat, x. split; [done |]. split; [| done].
        split; [done |]. split.
        -- intros [|j] q Hq; simpl in Hq.
           ++ inversion Hq; subst; lia.
           ++ apply Hall. by eapply list_elem_of_lookup_2.
        -- intros j q _ Hj. lia.
      * destruct Hfl as (Hi & Hmin & Hfirst).
        exists (S i), p. split; [done |]. split; [| lia].
        split; [done |]. split.
        -- intros [|j] q Hq; simpl in Hq.
           ++ inversion Hq; subst; lia.
           ++ by eapply Hmin.
        -- intros [|j] q Hq Hj; simpl in Hq.
           ++ inversion Hq; subst; lia.
           ++ eapply Hfirst; [done | lia].
    + destruct (IH best result) as [[E Hall] | (i & p & E & Hfl & Hp)].
      * left. split; [done |]. intros q Hq.
        apply elem_of_cons in Hq as [-> | Hq]; [lia | by apply Hall].
      * right. destruct Hfl as (Hi & Hmin & Hfirst).
        exists (S i), p. split; [done |]. split; [| done].
        split; [done |]. split.
        -- intros [|j] q Hq; simpl in Hq.
           ++ inversion Hq; subst; lia.
           ++ by eapply Hmin.
        -- intros [|j] q Hq Hj; simpl in Hq.
           ++ inversion Hq; subst; lia.
           ++ eapply Hfirst; [done | lia].
Qed.

Lemma first_least_opp key l i p :
  first_least (fun q => - key q) l i p -> first_greatest key l i p.
Proof.
  intros (Hi & Hmin & Hfirst). split; [done |]. split.
  - intros j q Hq. specialize (Hmin j q Hq). simpl in Hmin. lia.
  - intros j q Hq Hj. specialize (Hfirst j q Hq Hj). simpl in Hfirst. lia.
Qed.

(** The entry that a scan selects is the first occurrence of its pointer. *)
Lemma first_least_first key l i p :
  first_least key l i p -> forall j, (j < i)%nat -> l !! j <> Some p.
Proof.
  intros (_ & _ & Hfirst) j Hj Hq. specialize (Hfirst j p Hq Hj). lia.
Qed.

Create HintDb keeps.

(** Breaks a piece of straight-line scheduler code into its primitives; a
    piece that is already known to keep the component is taken from the hint
    database. *)
Ltac keeps_step :=
  first
    [ solve [auto with keeps nocore]
    | apply keeps_ret
    | apply keeps_gets
    | apply keeps_ASSERT
    | apply keeps_deref
    | apply keeps_bind; [| intros ?]
    | apply keeps_modify; intros ?; reflexivity
    | apply keeps_call; intros ? ?; reflexivity
    | apply keeps_delete_thread; intros ? ?; reflexivity
    | apply keeps_emit; intros ? ?; reflexivity
    | apply keeps_forEach; intros ?
    | match goal with
      | |- keeps _ (if ?b then _ else _) => destruct b
      | |- keeps _ (match ?x with Some _ => _ | None => _ end) => destruct x
      | |- keeps _ (let '(_, _) := ?x in _) => destruct x
      end ].

Ltac keeps_auto := repeat keeps_step.

Section SchedulerFacts.

Context `{ThreadExternals}.

(** *** The dirty flag *)

Lemma keeps_dirty_L_Append i item : keeps dirty (L_Append i item).
Proof.
  apply keeps_modify. intros s.
  destruct i as [|[|[|[|i]]]]; reflexivity.
Qed.

Lemma keeps_dirty_L_Remove i item : keeps dirty (L_Remove i item).
Proof.
  apply keeps_modify. intros s.
  destruct i as [|[|[|[|i]]]]; reflexivity.
Qed.

Hint Resolve keeps_dirty_L_Append keeps_dirty_L_Remove : keeps.

Lemma keeps_dirty_ReadyToRun thread : keeps dirty (ReadyToRun thread).
Proof. unfold ReadyToRun. keeps_auto. Qed.

Lemma keeps_dirty_CheckToBeDestroyed : keeps dirty CheckToBeDestroyed.
Proof. unfold CheckToBeDestroyed. keeps_auto. Qed.

Hint Resolve keeps_dirty_CheckToBeDestroyed : keeps.

Lemma keeps_dirty_Run_dispatch nextThread finishing :
  keeps dirty (Run_dispatch nextThread finishing).
Proof. unfold Run_dispatch. keeps_auto. Qed.

Lemma keeps_dirty_Run_resume oldThread : keeps dirty (Run_resume oldThread).
Proof. unfold Run_resume. keeps_auto. Qed.

Lemma keeps_dirty_Print : keeps dirty Print.
Proof. unfold Print, cout_line, ThreadPrint. keeps_auto. Qed.

Lemma keeps_dirty_promote_loop src dst bound it :
  forall temp flag, keeps dirty (promote_loop src dst bound it temp flag).
Proof.
  induction it as [|item it IH]; intros temp flag; simpl; keeps_auto.
Qed.

Hint Resolve keeps_dirty_promote_loop : keeps.

Lemma keeps_dirty_maintainQueues : keeps dirty maintainQueues.
Proof. unfold maintainQueues. keeps_auto. Qed.

Lemma keeps_dirty_incTickToThreads amount :
  keeps dirty (incTickToThreads amount).
Proof. unfold incTickToThreads. keeps_auto. Qed.

Lemma keeps_dirty_findNextL1_loop it :
  forall best result, keeps dirty (findNextL1_loop it best result).
Proof.
  induction it as [|item it IH]; intros best result; simpl; keeps_auto.
Qed.

Lemma keeps_dirty_findNextL2_loop it :
  forall best result, keeps dirty (findNextL2_loop it best result).
Proof.
  induction it as [|item it IH]; intros best result; simpl; keeps_auto.
Qed.

Hint Resolve keeps_dirty_findNextL1_loop keeps_dirty_findNextL2_loop : keeps.

Lemma keeps_dirty_take_from i result : keeps dirty (take_from i result).
Proof. unfold take_from. keeps_auto. Qed.

Hint Resolve keeps_dirty_take_from : keeps.

Lemma keeps_dirty_findNext : keeps dirty findNext.
Proof.
  unfold findNext, findNext_bands, preprocessThreads, findNextL1, findNextL2,
    findNextL3.
  keeps_auto.
Qed.

Lemma keeps_dirty_FindNextToRun : keeps dirty FindNextToRun.
Proof.
  unfold FindNextToRun.
  apply keeps_bind; [apply keeps_gets | intros lvl].
  apply keeps_bind; [apply keeps_ASSERT | intros _].
  apply keeps_dirty_findNext.
Qed.

Lemma keeps_dirty_perform c :
  (forall d, c <> CallSetDirty d) -> keeps dirty (perform c).
Proof.
  intros Hc. destruct c; simpl.
  - apply keeps_dirty_ReadyToRun.
  - apply keeps_bind; [apply keeps_dirty_FindNextToRun | intros; apply keeps_ret].
  - apply keeps_dirty_Run_dispatch.
  - apply keeps_dirty_Run_resume.
  - apply keeps_dirty_CheckToBeDestroyed.
  - apply keeps_dirty_Print.
  - apply keeps_bind; [apply keeps_dirty_maintainQueues | intros; apply keeps_ret].
  - apply keeps_dirty_incTickToThreads.
  - destruct (Hc d). reflexivity.
Qed.

Lemma perform_all_dirty cs :
  forall s s', perform_all cs s = Ok tt s' ->
               getDirty s' = dirty_after cs (dirty s).
Proof.
  induction cs as [|c cs IH]; intros s s' E; simpl in *.
  - inversion E. reflexivity.
  - unfold bind in E. destruct (perform c s) as [[] s1| |] eqn:E1; try discriminate.
    rewrite (IH _ _ E). unfold dirty_after. simpl. f_equal.
    destruct c;
      try (refine (keeps_dirty_perform _ _ _ _ _ E1); intros ?; discriminate).
    inversion E1. reflexivity.
Qed.

(** *** maintainQueues *)

Lemma promote_loop_wp src dst bound s0 it :
  (dst = 1 \/ dst = 2)%nat ->
  forall temp flag s,
    heap s = heap s0 ->
    Forall (live s0) it ->
    wp (promote_loop src dst bound it temp flag)
       (fun r s' =>
          let moved := filter (fun p => bound <= getPriority s0 p) it in
          r = (temp ++ moved, flag || bool_decide (moved <> [])) /\
          heap s' = heap s0 /\
          L1 s' = (if Nat.eqb dst 1 then L1 s ++ moved else L1 s) /\
          L2 s' = (if Nat.eqb dst 2 then L2 s ++ moved else L2 s) /\
          L3 s' = L3 s) s.
Proof.
  intros Hdst. induction it as [|item it IH]; intros temp flag s Hh Hlive.
  - simpl. wp_step. rewrite app_nil_r, orb_false_r.
    repeat split; destruct Hdst as [-> | ->]; simpl; by rewrite ?app_nil_r.
  - apply Forall_cons in Hlive as [[t Ht] Hlive].
    simpl promote_loop. wp_step.
    eapply wp_deref; [by rewrite Hh |].
    assert (Hprio : getPriority s0 item = priority t)
      by (unfold getPriority; by rewrite Ht).
    destruct (priority t >=? bound) eqn:Hge.
    + apply Z.geb_le in Hge.
      rewrite filter_cons_True by (by rewrite Hprio).
      destruct (dumpLogToFile s) eqn:Hdump;
        destruct Hdst as [-> | ->];
        do 8 wp_step;
        (eapply wp_mono; [apply IH; [exact Hh | exact Hlive] |]);
        cbn beta zeta; proj_simpl; cbn [Nat.eqb];
        intros r s' (-> & Hh' & HL1 & HL2 & HL3);
        unfold List_.Append in *; rewrite <- ?app_assoc, orb_true_r in *;
        repeat split; try done.
    + assert (~ bound <= getPriority s0 item).
      { rewrite Hprio. intros Hle. apply Z.geb_le in Hle. congruence. }
      rewrite filter_cons_False by done.
      by apply IH.
Qed.

Lemma forEach_L_Remove_wp i rm (Q : unit -> State -> Prop) :
  (i = 2 \/ i = 3)%nat ->
  forall s,
    Q tt (with_L i (foldl (fun l p => List_.Remove p l) (L i s) rm) s) ->
    wp (forEach rm (L_Remove i)) Q s.
Proof.
  intros Hi. induction rm as [|p rm IH]; intros s HQ; simpl forEach.
  - wp_step. destruct Hi as [-> | ->]; destruct s; exact HQ.
  - wp_step. wp_step. apply IH.
    destruct Hi as [-> | ->]; exact HQ.
Qed.

(** The lists and the value maintainQueues ends with, in terms of the lists
    and priorities it starts from. *)
Lemma maintainQueues_wp s :
  Forall (live s) (L2 s) -> Forall (live s) (L3 s) ->
  wp maintainQueues
     (fun r s' =>
        let to2 := filter (fun p => 50 <= getPriority s p) (L3 s) in
        let to1 := filter (fun p => 100 <= getPriority s p) (L2 s ++ to2) in
        heap s' = heap s /\
        L1 s' = L1 s ++ to1 /\
        L2 s' = filter (fun p => ~ 100 <= getPriority s p) (L2 s ++ to2) /\
        L3 s' = filter (fun p => ~ 50 <= getPriority s p) (L3 s) /\
        r = (if bool_decide (to1 <> []) then 1
             else if bool_decide (to2 <> []) then 2 else 0)) s.
Proof.
  intros Hl2 Hl3. unfold maintainQueues.
  wp_step. wp_step. wp_step.
  eapply wp_mono; [by apply (promote_loop_wp 3 2 50 s); [right | |] |].
  cbn beta zeta. cbn [Nat.eqb].
  intros r1 s1 (-> & Hh1 & H11 & H12 & H13).
  wp_step. apply forEach_L_Remove_wp; [by right |]. proj_simpl.
  wp_step. wp_step. wp_step.
  set (to2 := filter (fun p => 50 <= getPriority s p) (L3 s)) in *.
  eapply wp_mono.
  { apply (promote_loop_wp 2 1 100 s); [by left | exact Hh1 |].
    rewrite H12. apply Forall_app. split; [done |].
    apply Forall_forall. intros p Hp.
    apply list_elem_of_filter in Hp as [_ Hp].
    by apply (proj1 (Forall_forall _ _) Hl3). }
  cbn beta zeta. cbn [Nat.eqb]. proj_simpl.
  intros r2 s2 (-> & Hh2 & H21 & H22 & H23).
  wp_step. apply forEach_L_Remove_wp; [by left |]. proj_simpl.
  rewrite H12 in *. rewrite H13 in *. simpl app in *. simpl orb.
  set (to1 := filter (fun p => 100 <= getPriority s p) (L2 s ++ to2)) in *.
  assert (Hfinal : forall r,
    r = (if bool_decide (to1 <> []) then 1
         else if bool_decide (to2 <> []) then 2 else 0) ->
    wp (ret r)
       (fun r s' =>
          heap s' = heap s /\ L1 s' = L1 s ++ to1 /\
          L2 s' = filter (fun p => ~ 100 <= getPriority s p) (L2 s ++ to2) /\
          L3 s' = filter (fun p => ~ 50 <= getPriority s p) (L3 s) /\
          r = (if bool_decide (to1 <> []) then 1
               else if bool_decide (to2 <> []) then 2 else 0))
       (with_L2 (foldl (fun l p => List_.Remove p l) (L2 s2) to1) s2)).
  { intros r ->. wp_step.
    rewrite H21, H22, H23, H11. unfold to1, to2. rewrite !Remove_filter.
    done. }
  destruct (bool_decide (to1 <> [])), (bool_decide (to2 <> []));
    by apply Hfinal.
Qed.

(** *** findNext *)

Lemma findNextL1_loop_exec it :
  forall best result s,
    Forall (live s) it ->
    findNextL1_loop it best result s
    = Ok (scan_less (getExecutionTime s) it best result) s.
Proof.
  induction it as [|item it IH]; intros best result s Hlive; [done |].
  apply Forall_cons in Hlive as [[t Ht] Hlive].
  assert (Hkey : getExecutionTime s item = executionTime t)
    by (unfold getExecutionTime; by rewrite Ht).
  simpl. unfold bind, deref. rewrite Ht, Hkey.
  destruct (executionTime t <? best); by apply IH.
Qed.

Lemma findNextL2_loop_exec it :
  forall best result s,
    Forall (live s) it ->
    findNextL2_loop it best result s
    = Ok (scan_less (fun p => - getPriority s p) it (- best) result) s.
Proof.
  induction it as [|item it IH]; intros best result s Hlive; [done |].
  apply Forall_cons in Hlive as [[t Ht] Hlive].
  assert (Hkey : getPriority s item = priority t)
    by (unfold getPriority; by rewrite Ht).
  simpl. unfold bind, deref. rewrite Ht, Hkey.
  rewrite Z.gtb_ltb.
  destruct (Z.ltb_spec best (priority t)), (Z.ltb_spec (- priority t) (- best));
    try lia; by apply IH.
Qed.

Lemma take_from_wp i result s t :
  (i = 1 \/ i = 2 \/ i = 3)%nat ->
  heap s !! result = Some t ->
  wp (take_from i result)
     (fun r s' =>
        r = Some result /\ heap s' = heap s /\
        L1 s' = (if Nat.eqb i 1 then List_.Remove result (L1 s) else L1 s) /\
        L2 s' = (if Nat.eqb i 2 then List_.Remove result (L2 s) else L2 s) /\
        L3 s' = (if Nat.eqb i 3 then List_.Remove result (L3 s) else L3 s)) s.
Proof.
  intros Hi Ht. unfold take_from.
  destruct (dumpLogToFile s) eqn:Hdump;
    destruct Hi as [-> | [-> | ->]];
    do 5 wp_step;
    (eapply wp_deref; [proj_simpl; exact Ht |]);
    do 3 wp_step; done.
Qed.

Lemma findNext_bands_wp s :
  bands_live s ->
  wp findNext_bands
     (fun r s' =>
        heap s' = heap s /\
        (from_band1 s r s' \/ from_band2 s r s' \/ from_band3 s r s')) s.
Proof.
  unfold bands_live, bands. rewrite !Forall_app. intros (Hl1 & Hl2 & Hl3).
  unfold findNext_bands. wp_step.
  exists (scan_less (getExecutionTime s) (L1 s) 0x7fffffff None), s.
  split.
  { unfold findNextL1, bind, gets. by apply findNextL1_loop_exec. }
  destruct (scan_less_spec (getExecutionTime s) (L1 s) 0x7fffffff None)
    as [[-> Hnone1] | (i & p & -> & Hfl & Hp)].
  2:{ (* band 1 gives its first least entry *)
    assert (Hi : L1 s !! i = Some p) by apply Hfl.
    destruct (proj1 (Forall_forall _ _) Hl1 p) as [t Ht];
      [by eapply list_elem_of_lookup_2 |].
    eapply wp_mono; [by apply (take_from_wp 1 p s t); [left |] |].
    cbn [Nat.eqb]. intros r s' (-> & Hh & H1 & H2 & H3).
    split; [done |]. left. exists i, p.
    rewrite H1, (Remove_delete _ i) by eauto using first_least_first.
    done. }
  wp_step.
  exists (scan_less (fun q => - getPriority s q) (L2 s) (- -1) None), s.
  split.
  { unfold findNextL2, bind, gets. by apply findNextL2_loop_exec. }
  destruct (scan_less_spec (fun q => - getPriority s q) (L2 s) (- -1) None)
    as [[-> Hnone2] | (i & p & -> & Hfl & Hp)].
  2:{ (* band 2 gives its first greatest entry *)
    apply first_least_opp in Hfl.
    assert (Hi : L2 s !! i = Some p) by apply Hfl.
    destruct (proj1 (Forall_forall _ _) Hl2 p) as [t Ht];
      [by eapply list_elem_of_lookup_2 |].
    eapply wp_mono; [by apply (take_from_wp 2 p s t); [right; left |] |].
    cbn [Nat.eqb]. intros r s' (-> & Hh & H1 & H2 & H3).
    split; [done |]. right. left. split; [exact Hnone1 |]. exists i, p.
    rewrite H2, (Remove_delete _ i).
    - repeat split; try done; try apply Hfl. lia.
    - done.
    - intros j Hj Hq. destruct Hfl as (_ & _ & Hfirst).
      specialize (Hfirst j p Hq Hj). lia. }
  assert (Hnone2' : band2_gives_nothing s).
  { intros q Hq. specialize (Hnone2 q Hq). simpl in Hnone2. lia. }
  wp_step. unfold findNextL3. wp_step. wp_step.
  destruct (L3 s) as [|p l3] eqn:E3; simpl List_.IsEmpty; cbv iota.
  - wp_step. wp_step. split; [done |]. right. right.
    unfold from_band3. rewrite E3. by repeat split.
  - wp_step. simpl List_.Front.
    apply Forall_cons in Hl3 as [[t Ht] _].
    eapply wp_mono; [by apply (take_from_wp 3 p s t); [right; right |] |].
    cbn [Nat.eqb]. intros r s' (-> & Hh & H1 & H2 & H3).
    split; [done |]. right. right.
    unfold from_band3. rewrite H3, E3. simpl.
    rewrite decide_True by done. by repeat split.
Qed.

Lemma at_selection_lists s :
  L1 (at_selection s) = L1 s /\ L2 (at_selection s) = L2 s /\
  L3 (at_selection s) = L3 s.
Proof. unfold at_selection. by destruct (heap s !! currentThread s). Qed.

Lemma at_selection_heap s t :
  heap s !! currentThread s = Some t ->
  heap (at_selection s) = <[currentThread s := closed_out t]> (heap s).
Proof. intros Ht. unfold at_selection. by rewrite Ht. Qed.

Lemma at_selection_live s p : live s p -> live (at_selection s) p.
Proof.
  unfold at_selection, live.
  destruct (heap s !! currentThread s) eqn:E; [| done].
  proj_simpl. intros Hp. rewrite lookup_insert_is_Some. 
  destruct (decide (currentThread s = p)); auto.
Qed.

Lemma at_selection_bands_live s : bands_live s -> bands_live (at_selection s).
Proof.
  unfold bands_live, bands.
  destruct (at_selection_lists s) as (-> & -> & ->).
  intros Hlive. eapply Forall_impl; [exact Hlive |].
  intros p. apply at_selection_live.
Qed.

Lemma preprocessThreads_exec s t :
  heap s !! currentThread s = Some t ->
  preprocessThreads s = Ok tt (at_selection s).
Proof.
  intros Ht. unfold preprocessThreads, at_selection, bind, gets, call.
  rewrite Ht. proj_simpl. rewrite lookup_insert_eq. proj_simpl.
  rewrite lookup_insert_eq. rewrite !insert_insert_eq. reflexivity.
Qed.

Lemma findNext_empty s : bands s = [] -> findNext s = Ok None s.
Proof.
  unfold bands. intros E.
  apply app_eq_nil in E as [E1 E]. apply app_eq_nil in E as [E2 E3].
  unfold findNext, bind, gets. proj_simpl. by rewrite E1, E2, E3.
Qed.

Lemma findNext_nonempty s t :
  bands s <> [] ->
  heap s !! currentThread s = Some t ->
  findNext s = findNext_bands (at_selection s).
Proof.
  intros Hne Ht. unfold findNext, bind at 1 2 3, gets. proj_simpl.
  destruct (List_.IsEmpty (L1 s) && List_.IsEmpty (L2 s)
            && List_.IsEmpty (L3 s)) eqn:E.
  - destruct Hne. unfold bands.
    destruct (L1 s), (L2 s), (L3 s); done.
  - unfold bind. by rewrite (preprocessThreads_exec s t).
Qed.

Lemma findNext_wp s t :
  bands_live s ->
  bands s <> [] ->
  heap s !! currentThread s = Some t ->
  wp findNext
     (fun r s' =>
        heap s' = heap (at_selection s) /\
        (from_band1 (at_selection s) r s' \/
         from_band2 (at_selection s) r s' \/
         from_band3 (at_selection s) r s')) s.
Proof.
  intros Hlive Hne Ht.
  destruct (findNext_bands_wp (at_selection s)) as (r & s' & E & HQ);
    [by apply at_selection_bands_live |].
  exists r, s'. split; [| exact HQ].
  by rewrite (findNext_nonempty s t).
Qed.

Lemma FindNextToRun_findNext s :
  level s = IntOff -> FindNextToRun s = findNext s.
Proof.
  intros Hl. unfold FindNextToRun, bind at 1 2, gets, ASSERT.
  by rewrite Hl.
Qed.

(** *** incTickToThreads *)

Lemma insert_as_alter (h : gmap nat Thread) p t (f : Thread -> Thread) :
  h !! p = Some t -> <[p := f t]> h = alter f p h.
Proof.
  intros Hp. apply map_eq. intros q.
  rewrite lookup_insert, lookup_alter.
  destruct (decide (p = q)); [by rewrite Hp | done].
Qed.

Lemma tick_store_live cur it (h : gmap nat Thread) p :
  is_Some (h !! p) -> is_Some (tick_store cur it h !! p).
Proof.
  revert h. induction it as [|item it IH]; intros h Hp; [done |].
  unfold tick_store. simpl. apply IH.
  destruct (bool_decide (item <> cur)); [| done].
  by apply lookup_alter_is_Some.
Qed.

Lemma tick_loop_exec it :
  forall s,
    Forall (live s) it ->
    forEach it (fun item =>
      cur <- gets currentThread ;;
      if bool_decide (item <> cur) then call item (incTickWaited 1)
      else ret tt) s
    = Ok tt (with_heap (tick_store (currentThread s) it (heap s)) s).
Proof.
  induction it as [|item it IH]; intros s Hlive.
  - by destruct s.
  - apply Forall_cons in Hlive as [[t Ht] Hlive].
    simpl forEach. unfold bind at 1 2, gets, call.
    unfold tick_store. simpl foldl.
    destruct (bool_decide (item <> currentThread s)).
    + rewrite Ht, IH.
      * proj_simpl. by rewrite (insert_as_alter _ _ t).
      * eapply Forall_impl; [exact Hlive |]. intros p Hp.
        unfold live in *. proj_simpl. rewrite lookup_insert_is_Some'. auto.
    + unfold ret. by rewrite IH.
Qed.

Lemma incTickToThreads_exec amount s :
  bands_live s ->
  incTickToThreads amount s
  = Ok tt (with_heap (tick_store (currentThread s) (bands s) (heap s)) s).
Proof.
  unfold bands_live, bands. rewrite !Forall_app. intros (Hl1 & Hl2 & Hl3).
  assert (Hkeep : forall it l, Forall (live s) l ->
            Forall (live (with_heap (tick_store (currentThread s) it (heap s)) s)) l).
  { intros it l Hl. eapply Forall_impl; [exact Hl |]. intros p Hp.
    unfold live in *. proj_simpl. by apply tick_store_live. }
  unfold incTickToThreads. simpl forEach.
  unfold bind at 1 2, gets. proj_simpl. rewrite tick_loop_exec by done.
  unfold bind at 1 2 3. proj_simpl.
  rewrite tick_loop_exec by (by apply (Hkeep (L1 s))).
  unfold bind at 1 2 3. proj_simpl.
  rewrite tick_loop_exec.
  - unfold ret. proj_simpl. unfold tick_store. by rewrite !foldl_app.
  - specialize (Hkeep (L1 s ++ L2 s) _ Hl3).
    unfold tick_store in *. by rewrite foldl_app in Hkeep.
Qed.

Lemma tick_store_lookup cur it :
  NoDup it ->
  forall (h : gmap nat Thread) p,
    tick_store cur it h !! p
    = if bool_decide (p ∈ it /\ p <> cur) then incTickWaited 1 <$> h !! p
      else h !! p.
Proof.
  induction 1 as [|item it Hnotin Hnodup IH]; intros h p.
  - rewrite bool_decide_eq_false_2; [done |].
    intros [Hin _]. by apply elem_of_nil in Hin.
  - unfold tick_store in *. simpl foldl. rewrite IH.
    destruct (decide (p = item)) as [-> | Hne].
    + rewrite (bool_decide_eq_false_2 (item ∈ it /\ _)) by tauto.
      destruct (decide (item = cur)) as [-> | Hcur].
      * rewrite bool_decide_eq_false_2 by tauto.
        by rewrite bool_decide_eq_false_2 by tauto.
      * rewrite bool_decide_eq_true_2 by done.
        rewrite bool_decide_eq_true_2 by (split; [left | done]).
        by rewrite lookup_alter_eq.
    + assert (Hp : (if bool_decide (item <> cur)
                    then alter (incTickWaited 1) item h else h) !! p = h !! p).
      { destruct (bool_decide (item <> cur)); [| done].
        by rewrite lookup_alter_ne. }
      rewrite Hp.
      destruct (decide (p ∈ it /\ p <> cur)) as [Hin | Hin].
      * rewrite !bool_decide_eq_true_2; [done | | done].
        split; [right |]; tauto.
      * rewrite !bool_decide_eq_false_2; [done | | done].
        intros [Hin' ?]. apply elem_of_cons in Hin' as [? | ?]; tauto.
Qed.

(** *** ReadyToRun *)

Lemma ReadyToRun_wp s thread t :
  level s = IntOff ->
  heap s !! thread = Some t ->
  wp (ReadyToRun thread)
     (fun _ s' =>
        let b := band_of_priority (priority t) in
        heap s' = <[thread := setStatus READY t]> (heap s) /\
        level s' = level s /\
        L1 s' = (if Nat.eqb b 1 then L1 s ++ [thread] else L1 s) /\
        L2 s' = (if Nat.eqb b 2 then L2 s ++ [thread] else L2 s) /\
        L3 s' = (if Nat.eqb b 3 then L3 s ++ [thread] else L3 s)) s.
Proof.
  intros Hl Ht. unfold ReadyToRun, band_of_priority.
  wp_step. wp_step. wp_step. wp_step; [by rewrite Hl |].
  wp_step. wp_step. wp_step.
  eapply wp_deref; [apply lookup_insert_eq |].
  wp_step. wp_step. wp_step. cbn [priority setStatus].
  destruct (dumpLogToFile s) eqn:Hdump; wp_step;
    destruct (priority t >=? 100); [| destruct (priority t >=? 50) | |
                                     destruct (priority t >=? 50)];
    wp_step; done.
Qed.

Lemma getPriority_setStatus s s' p thread t st :
  heap s !! thread = Some t ->
  heap s' = <[thread := setStatus st t]> (heap s) ->
  getPriority s' p = getPriority s p.
Proof.
  intros Ht Hh. unfold getPriority. rewrite Hh, lookup_insert.
  destruct (decide (thread = p)) as [<- |]; [by rewrite Ht | done].
Qed.

(** A sequence of admissions: every list grows by the admitted threads of
    its band, in the order of the calls. *)
Lemma ReadyToRun_sequence_wp ts :
  forall s,
    level s = IntOff ->
    Forall (live s) ts ->
    wp (forEach ts ReadyToRun)
       (fun _ s' =>
          L1 s' = L1 s ++ filter (fun p =>
                    band_of_priority (getPriority s p) = 1%nat) ts /\
          L2 s' = L2 s ++ filter (fun p =>
                    band_of_priority (getPriority s p) = 2%nat) ts /\
          L3 s' = L3 s ++ filter (fun p =>
                    band_of_priority (getPriority s p) = 3%nat) ts /\
          (forall p, getPriority s' p = getPriority s p) /\
          (forall p, live s p -> live s' p) /\
          (forall p t, p ∈ ts -> heap s' !! p = Some t -> status t = READY) /\
          (forall p t, heap s !! p = Some t -> status t = READY ->
                       exists t', heap s' !! p = Some t' /\ status t' = READY))
       s.
Proof.
  induction ts as [|thread ts IH]; intros s Hl Hlive; simpl forEach.
  - wp_step. rewrite !app_nil_r. repeat split; try done.
    + intros p t Hp. by apply elem_of_nil in Hp.
    + eauto.
  - apply Forall_cons in Hlive as [[t Ht] Hlive].
    wp_step. eapply wp_mono; [by apply (ReadyToRun_wp s thread t) |].
    cbn beta zeta. intros _ s1 (Hh1 & Hl1 & H11 & H12 & H13).
    assert (Hprio : forall p, getPriority s1 p = getPriority s p)
      by (intros p; by eapply getPriority_setStatus).
    assert (Hlive1 : forall p, live s p -> live s1 p).
    { intros p Hp. unfold live in *. rewrite Hh1, lookup_insert_is_Some'. auto. }
    eapply wp_mono.
    { apply IH; [congruence |]. eapply Forall_impl; [exact Hlive |]. done. }
    cbn beta zeta.
    intros _ s' (H21 & H22 & H23 & Hprio' & Hlive' & Hready & Hkeep).
    assert (Hb : band_of_priority (getPriority s thread)
                 = band_of_priority (priority t))
      by (unfold getPriority; by rewrite Ht).
    assert (Hfilter : forall b,
      filter (fun p => band_of_priority (getPriority s1 p) = b) ts
      = filter (fun p => band_of_priority (getPriority s p) = b) ts).
    { intros b. apply list_filter_iff. intros p. by rewrite Hprio. }
    rewrite !Hfilter in *.
    rewrite H21, H22, H23, H11, H12, H13.
    repeat split.
    + destruct (decide (band_of_priority (priority t) = 1%nat)) as [E | E].
      * rewrite filter_cons_True by congruence. rewrite E. simpl.
        by rewrite <- app_assoc.
      * rewrite filter_cons_False by congruence.
        by destruct (band_of_priority (priority t)) as [|[|[|[|?]]]].
    + destruct (decide (band_of_priority (priority t) = 2%nat)) as [E | E].
      * rewrite filter_cons_True by congruence. rewrite E. simpl.
        by rewrite <- app_assoc.
      * rewrite filter_cons_False by congruence.
        by destruct (band_of_priority (priority t)) as [|[|[|[|?]]]].
    + destruct (decide (band_of_priority (priority t) = 3%nat)) as [E | E].
      * rewrite filter_cons_True by congruence. rewrite E. simpl.
        by rewrite <- app_assoc.
      * rewrite filter_cons_False by congruence.
        by destruct (band_of_priority (priority t)) as [|[|[|[|?]]]].
    + intros p. by rewrite Hprio'.
    + auto.
    + intros p t' Hp Ht'. apply elem_of_cons in Hp as [-> | Hp]; [| eauto].
      destruct (Hkeep thread (setStatus READY t)) as (t'' & Ht'' & Hst);
        [by rewrite Hh1, lookup_insert_eq | done |].
      congruence.
    + intros p t0 Hp Hst.
      destruct (decide (thread = p)) as [<- | Hne].
      * apply (Hkeep thread (setStatus READY t));
          [by rewrite Hh1, lookup_insert_eq | done].
      * apply (Hkeep p t0); [by rewrite Hh1, lookup_insert_ne | done].
Qed.

(** *** Run and CheckToBeDestroyed *)

Lemma CheckToBeDestroyed_occupied s p t :
  toBeDestroyed s = Some p ->
  heap s !! p = Some t ->
  CheckToBeDestroyed s
  = Ok tt (with_toBeDestroyed None
             (with_deleted (deleted s ++ [p])
                (with_heap (delete p (heap s)) s))).
Proof.
  intros Hp Ht.
  unfold CheckToBeDestroyed, bind, gets, delete_thread, modify.
  by rewrite Hp, Ht.
Qed.


(** The thread [r] that is switched back to deletes the thread that was left
    in the slot. *)
Lemma Run_resume_destroys s p t r tr :
  level s = IntOff ->
  toBeDestroyed s = Some p ->
  heap s !! p = Some t ->
  r <> p ->
  heap s !! r = Some tr ->
  wp (Run_resume r)
     (fun _ s' =>
        deleted s' = deleted s ++ [p] /\ toBeDestroyed s' = None /\
        heap s' !! p = None) s.
Proof.
  intros Hl Hp Ht Hne Hr. unfold Run_resume.
  wp_step. wp_step. wp_step. wp_step; [by rewrite Hl |].
  wp_step. eexists tt, _.
  split; [by eapply CheckToBeDestroyed_occupied |].
  wp_step. eapply wp_deref; [proj_simpl; by rewrite lookup_delete_ne |].
  destruct (bool_decide (space tr = None)).
  - wp_step. by rewrite lookup_delete_eq.
  - wp_step.
    eapply wp_call; [proj_simpl; by rewrite lookup_delete_ne |]. proj_simpl.
    eapply wp_call; [proj_simpl; apply lookup_insert_eq |]. proj_simpl.
    repeat split.
    by rewrite !lookup_insert_ne, lookup_delete_eq.
Qed.

Lemma Run_dispatch_occupied s nextThread tn told :
  level s = IntOff ->
  heap s !! nextThread = Some tn ->
  heap s !! currentThread s = Some told ->
  toBeDestroyed s <> None ->
  Run_dispatch nextThread true s = AssertFailed.
Proof.
  intros Hl Hn Ho Hocc.
  unfold Run_dispatch, bind, gets, deref, emit, ASSERT, modify.
  rewrite Hn.
  destruct (dumpLogToFile s) eqn:Hdump; proj_simpl; rewrite Ho; proj_simpl;
    rewrite Hdump; proj_simpl; rewrite Hl; simpl;
    by rewrite bool_decide_eq_false_2.
Qed.

Lemma Run_dispatch_finishing_wp s nextThread tn told :
  level s = IntOff ->
  heap s !! nextThread = Some tn ->
  heap s !! currentThread s = Some told ->
  CheckOverflow (saved told) = true ->
  toBeDestroyed s = None ->
  wp (Run_dispatch nextThread true)
     (fun _ s' =>
        toBeDestroyed s' = Some (currentThread s) /\
        currentThread s' = nextThread /\
        deleted s' = deleted s /\
        live s' (currentThread s) /\
        (exists t, heap s' !! nextThread = Some t /\ status t = RUNNING) /\
        level s' = level s) s.
Proof.
  intros Hl Hn Ho Hover Hempty. unfold Run_dispatch.
  assert (Hlast : forall (s1 : State) t1,
    heap s1 !! currentThread s = Some t1 ->
    CheckOverflow t1 = true ->
    is_Some (heap s1 !! nextThread) ->
    toBeDestroyed s1 = Some (currentThread s) ->
    deleted s1 = deleted s ->
    level s1 = level s ->
    wp (to <- deref (currentThread s) ;;
        ASSERT (CheckOverflow to) ;;;
        modify (with_currentThread nextThread) ;;;
        call nextThread (setStatus RUNNING))
       (fun _ s' =>
          toBeDestroyed s' = Some (currentThread s) /\
          currentThread s' = nextThread /\
          deleted s' = deleted s /\
          live s' (currentThread s) /\
          (exists t, heap s' !! nextThread = Some t /\ status t = RUNNING) /\
          level s' = level s) s1).
  { intros s1 t1 Hold Hov [tn1 Hnext] Htbd Hdel Hlvl.
    wp_step. wp_step. wp_step. wp_step; [exact Hov |].
    wp_step. wp_step. eapply wp_call; [proj_simpl; exact Hnext |].
    proj_simpl. repeat split; try done.
    - unfold live. proj_simpl. rewrite lookup_insert_is_Some'. eauto.
    - eexists. by rewrite lookup_insert_eq. }
  unfold saved in Hover.
  destruct (dumpLogToFile s) eqn:Hdump; repeat wp_step;
    try (by rewrite Hl); try (by rewrite Hempty; apply bool_decide_eq_true_2);
    (destruct (bool_decide (space told = None));
     [ wp_step; apply (Hlast _ told); proj_simpl; by eauto
     | wp_step; wp_step;
       (eapply wp_call; [proj_simpl; apply lookup_insert_eq |]); proj_simpl;
       apply (Hlast _ (AddrSpace_SaveState (SaveUserState told)));
       proj_simpl; try done;
       [ by rewrite lookup_insert_eq
       | rewrite !lookup_insert_is_Some'; eauto ] ]).
Qed.

End SchedulerFacts.

(** * The properties of the scheduler *)

Section Properties.

Context `{ThreadExternals}.

(** ** Aging *)

(** C3. maintainQueues moves every band-3 thread whose priority is at least
    50 to band 2; it then scans band 2, the threads just moved included, and
    moves every thread whose priority is at least 100 to band 1, so that a
    band-3 thread of priority 100 or more ends in band 1 in the same call.
    A thread below its band's boundary stays where it is, no thread enters a
    lower band, and the value returned is 1 if a thread was moved into band
    1, else 2 if a thread was moved into band 2, else 0. *)
Theorem C3_maintainQueues_promotes s :
  Forall (live s) (L2 s) ->
  Forall (live s) (L3 s) ->
  exists r s',
    maintainQueues s = Ok r s' /\
    (forall p, getPriority s' p = getPriority s p) /\
    (forall p, p ∈ L3 s -> 50 <= getPriority s p ->
       (p ∉ L3 s') /\
       (getPriority s p < 100 -> p ∈ L2 s') /\
       (100 <= getPriority s p -> p ∈ L1 s' /\ (p ∉ L2 s'))) /\
    (forall p, p ∈ L2 s -> 100 <= getPriority s p ->
       p ∈ L1 s' /\ (p ∉ L2 s')) /\
    (forall p, p ∈ L3 s -> getPriority s p < 50 -> p ∈ L3 s') /\
    (forall p, p ∈ L2 s -> getPriority s p < 100 -> p ∈ L2 s') /\
    (forall p, p ∈ L1 s -> p ∈ L1 s') /\
    (forall p, p ∈ L1 s' -> p ∈ L1 s \/ 100 <= getPriority s p) /\
    (forall p, p ∈ L2 s' -> p ∈ L2 s \/ (p ∈ L3 s /\ 50 <= getPriority s p)) /\
    (forall p, p ∈ L3 s' -> p ∈ L3 s) /\
    ((exists p, (p ∈ L2 s \/ p ∈ L3 s) /\ 100 <= getPriority s p) -> r = 1) /\
    (~ (exists p, (p ∈ L2 s \/ p ∈ L3 s) /\ 100 <= getPriority s p) ->
     (exists p, p ∈ L3 s /\ 50 <= getPriority s p) -> r = 2) /\
    (~ (exists p, (p ∈ L2 s \/ p ∈ L3 s) /\ 100 <= getPriority s p) ->
     ~ (exists p, p ∈ L3 s /\ 50 <= getPriority s p) -> r = 0).
Proof.
  intros Hl2 Hl3.
  destruct (maintainQueues_wp s Hl2 Hl3)
    as (r & s' & E & Hh & H1 & H2 & H3 & Hr).
  cbn zeta in *. exists r, s'. split; [exact E |].
  set (to2 := filter (fun p => 50 <= getPriority s p) (L3 s)) in *.
  set (to1 := filter (fun p => 100 <= getPriority s p) (L2 s ++ to2)) in *.
  assert (Hto2 : forall p, p ∈ to2 <-> 50 <= getPriority s p /\ p ∈ L3 s).
  { intros p. unfold to2. by rewrite list_elem_of_filter. }
  assert (Hto1 : forall p,
    p ∈ to1 <-> 100 <= getPriority s p /\ (p ∈ L2 s \/ p ∈ to2)).
  { intros p. unfold to1. by rewrite list_elem_of_filter, elem_of_app. }
  assert (Hin1 : forall p, p ∈ L1 s' <-> p ∈ L1 s \/ p ∈ to1)
    by (intros p; by rewrite H1, elem_of_app).
  assert (Hin2 : forall p,
    p ∈ L2 s' <-> ~ 100 <= getPriority s p /\ (p ∈ L2 s \/ p ∈ to2)).
  { intros p. by rewrite H2, list_elem_of_filter, elem_of_app. }
  assert (Hin3 : forall p, p ∈ L3 s' <-> ~ 50 <= getPriority s p /\ p ∈ L3 s).
  { intros p. by rewrite H3, list_elem_of_filter. }
  assert (Hany1 : to1 <> [] <->
    exists p, (p ∈ L2 s \/ p ∈ L3 s) /\ 100 <= getPriority s p).
  { rewrite nonempty_elem. split.
    - intros (p & Hp).
      apply Hto1 in Hp as [Hp [Hin | Hin]]; [by eauto |].
      apply Hto2 in Hin. exists p. tauto.
    - intros (p & Hin & Hp). exists p.
      apply Hto1. split; [done |]. destruct Hin as [? | ?]; [by left |].
      right. apply Hto2. split; [lia | done]. }
  assert (Hany2 : to2 <> [] <-> exists p, p ∈ L3 s /\ 50 <= getPriority s p).
  { rewrite nonempty_elem. split.
    - intros (p & Hp). apply Hto2 in Hp. exists p. tauto.
    - intros (p & Hin & Hp). exists p. by apply Hto2. }
  split; [by intros p; unfold getPriority; rewrite Hh |].
  split.
  { intros p Hp Hge. rewrite Hin3, Hin2, Hin1, Hto1, Hto2.
    repeat split; try tauto; try lia. }
  split; [intros p Hp Hge; rewrite Hin2, Hin1, Hto1; tauto |].
  split; [intros p Hp Hlt; rewrite Hin3; split; [lia | done] |].
  split; [intros p Hp Hlt; rewrite Hin2; split; [lia | by left] |].
  split; [intros p Hp; rewrite Hin1; by left |].
  split; [intros p; rewrite Hin1, Hto1; tauto |].
  split; [intros p; rewrite Hin2, Hto2; tauto |].
  split; [intros p; rewrite Hin3; tauto |].
  split.
  { intros Hex. rewrite Hr, bool_decide_eq_true_2; [done | by apply Hany1]. }
  split.
  { intros Hno1 Hex2. rewrite Hr, bool_decide_eq_false_2.
    - rewrite bool_decide_eq_true_2; [done | by apply Hany2].
    - intros Hne. by apply Hno1, Hany1. }
  intros Hno1 Hno2. rewrite Hr, bool_decide_eq_false_2.
  - rewrite bool_decide_eq_false_2; [done |]. intros Hne. by apply Hno2, Hany2.
  - intros Hne. by apply Hno1, Hany1.
Qed.

(** C9. maintainQueues keeps the order of insertion.  [filter] keeps the
    entries it selects in the order they had, so: band 3 is left with its
    threads below 50 in their order; band 2 holds its former threads below
    100 in their order, followed by the threads that came from band 3, in
    the order they had there; band 1 holds its former entries, followed by
    the threads that came from band 2 in the order they had there, followed
    by those that came all the way from band 3, in the order they had
    there. *)
Theorem C9_maintainQueues_keeps_order s :
  Forall (live s) (L2 s) ->
  Forall (live s) (L3 s) ->
  exists r s',
    maintainQueues s = Ok r s' /\
    L3 s' = filter (fun p => getPriority s p < 50) (L3 s) /\
    L2 s' = filter (fun p => getPriority s p < 100) (L2 s)
            ++ filter (fun p => 50 <= getPriority s p < 100) (L3 s) /\
    L1 s' = L1 s
            ++ filter (fun p => 100 <= getPriority s p) (L2 s)
            ++ filter (fun p => 100 <= getPriority s p) (L3 s).
Proof.
  intros Hl2 Hl3.
  destruct (maintainQueues_wp s Hl2 Hl3)
    as (r & s' & E & Hh & H1 & H2 & H3 & Hr).
  cbn zeta in *. exists r, s'. split; [exact E |].
  rewrite H1, H2, H3. rewrite !filter_app, !list_filter_filter.
  repeat split.
  - apply list_filter_iff. intros p. lia.
  - f_equal; apply list_filter_iff; intros p; lia.
  - do 2 f_equal. apply list_filter_iff. intros p. lia.
Qed.

(** The aging pass only rearranges the entries of the bands. *)
Lemma maintainQueues_bands s :
  Forall (live s) (L2 s) ->
  Forall (live s) (L3 s) ->
  exists r s', maintainQueues s = Ok r s' /\ bands s' ≡ₚ bands s.
Proof.
  intros Hl2 Hl3.
  destruct (maintainQueues_wp s Hl2 Hl3)
    as (r & s' & E & _ & H1 & H2 & H3 & _).
  cbn zeta in *. exists r, s'. split; [exact E |].
  unfold bands. rewrite H1, H2, H3.
  set (to2 := filter (fun p => 50 <= getPriority s p) (L3 s)).
  rewrite <- (app_assoc (L1 s)). apply Permutation_app_head.
  rewrite (app_assoc (filter _ (L2 s ++ to2))), filter_app_complement.
  rewrite <- app_assoc. apply Permutation_app_head.
  apply filter_app_complement.
Qed.

(** ** Admission *)

(** C4. Every call of ReadyToRun in a sequence of calls sets the status of
    its thread to READY and appends the thread at the tail of the one list
    its priority selects: band 1 from 100 on, band 2 from 50 to 99, band 3
    below 50.  After the calls for [ts], every list is the one before, then
    the admitted threads of its band in the order of the calls. *)
Theorem C4_ReadyToRun_lands_in_band (ts : list nat) s :
  level s = IntOff ->
  Forall (live s) ts ->
  exists s',
    forEach ts ReadyToRun s = Ok tt s' /\
    L1 s' = L1 s ++ filter (fun p => 100 <= getPriority s p) ts /\
    L2 s' = L2 s ++ filter (fun p => 50 <= getPriority s p < 100) ts /\
    L3 s' = L3 s ++ filter (fun p => getPriority s p < 50) ts /\
    (forall p, p ∈ ts ->
       exists t, heap s' !! p = Some t /\ status t = READY) /\
    (forall p, getPriority s' p = getPriority s p).
Proof.
  intros Hl Hlive.
  destruct (ReadyToRun_sequence_wp ts s Hl Hlive)
    as ([] & s' & E & H1 & H2 & H3 & Hprio & Hlive' & Hready & _).
  exists s'. split; [exact E |].
  assert (Hband : forall prio,
    (band_of_priority prio = 1%nat <-> 100 <= prio) /\
    (band_of_priority prio = 2%nat <-> 50 <= prio < 100) /\
    (band_of_priority prio = 3%nat <-> prio < 50)).
  { intros prio. unfold band_of_priority.
    destruct (Z.geb_spec prio 100), (Z.geb_spec prio 50);
      repeat split; intros; try done; lia. }
  rewrite H1, H2, H3. repeat split; try done.
  - f_equal. apply list_filter_iff. intros p. apply Hband.
  - f_equal. apply list_filter_iff. intros p. apply Hband.
  - f_equal. apply list_filter_iff. intros p. apply Hband.
  - intros p Hp.
    destruct (Hlive' p) as [t Ht];
      [by apply (proj1 (Forall_forall _ _) Hlive) |].
    exists t. split; [done |]. by apply (Hready p).
Qed.

(** ** Per-tick accounting *)

(** C7. Whatever [amount] is, incTickToThreads adds exactly one to the wait
    counter of every thread that is in one of the three bands and is not the
    current thread, and changes nothing else.  The bands hold every thread
    at most once, which is the membership invariant of the data model. *)
Theorem C7_incTickToThreads_adds_one amount s :
  bands_live s ->
  NoDup (bands s) ->
  exists s',
    incTickToThreads amount s = Ok tt s' /\
    (forall p t, p ∈ bands s -> p <> currentThread s ->
       heap s !! p = Some t ->
       heap s' !! p = Some (incTickWaited 1 t) /\
       tickWaited (incTickWaited 1 t) = tickWaited t + 1) /\
    (forall p, p ∉ bands s \/ p = currentThread s ->
       heap s' !! p = heap s !! p) /\
    L1 s' = L1 s /\ L2 s' = L2 s /\ L3 s' = L3 s /\
    currentThread s' = currentThread s.
Proof.
  intros Hlive Hnodup. eexists. split; [by apply incTickToThreads_exec |].
  proj_simpl. split; [| split; [| done]].
  - intros p t Hin Hcur Ht. split; [| done].
    rewrite tick_store_lookup by done.
    rewrite bool_decide_eq_true_2 by done. by rewrite Ht.
  - intros p Hp. rewrite tick_store_lookup by done.
    rewrite bool_decide_eq_false_2; [done | tauto].
Qed.

(** ** Deferred destruction *)

(** C8. Run with [finishing] set stops at a failed assertion when the
    pending-destruction slot is occupied.  When the slot is empty, Run
    stores the outgoing thread in it, that is the thread that was current
    when Run was entered and not the thread it dispatches to (which is the
    current thread from then on).  CheckToBeDestroyed, called once control
    comes back through the dispatch boundary, deletes that stored thread and
    nothing else, and leaves the slot empty; a further call deletes
    nothing.  The same holds when the thread dispatched to comes back from
    its own SWITCH and runs the rest of Run. *)
Theorem C8_finishing_thread_destroyed_once s nextThread tn told :
  level s = IntOff ->
  heap s !! nextThread = Some tn ->
  heap s !! currentThread s = Some told ->
  CheckOverflow (saved told) = true ->
  (toBeDestroyed s <> None ->
   Run_dispatch nextThread true s = AssertFailed) /\
  (toBeDestroyed s = None ->
   exists s1 s2,
     Run_dispatch nextThread true s = Ok tt s1 /\
     toBeDestroyed s1 = Some (currentThread s) /\
     currentThread s1 = nextThread /\
     deleted s1 = deleted s /\
     CheckToBeDestroyed s1 = Ok tt s2 /\
     deleted s2 = deleted s ++ [currentThread s] /\
     heap s2 = delete (currentThread s) (heap s1) /\
     toBeDestroyed s2 = None /\
     CheckToBeDestroyed s2 = Ok tt s2 /\
     (nextThread <> currentThread s ->
      exists s3,
        Run_resume nextThread s1 = Ok tt s3 /\
        deleted s3 = deleted s ++ [currentThread s] /\
        toBeDestroyed s3 = None)).
Proof.
  intros Hl Hn Ho Hover. split.
  - intros Hocc. by eapply Run_dispatch_occupied.
  - intros Hempty.
    destruct (Run_dispatch_finishing_wp s nextThread tn told)
      as ([] & s1 & E1 & Htbd & Hcur & Hdel & [t1 Ht1] & [tn1 [Hn1 _]] & Hl1);
      try done.
    eexists s1, _. split; [exact E1 |].
    split; [exact Htbd |]. split; [exact Hcur |]. split; [exact Hdel |].
    split; [by eapply CheckToBeDestroyed_occupied |].
    proj_simpl. rewrite Hdel. do 4 (split; [reflexivity |]).
    intros Hne.
    destruct (Run_resume_destroys s1 (currentThread s) t1 nextThread tn1)
      as ([] & s3 & E3 & Hdel3 & Hnone3 & _); try done; [congruence |].
    exists s3. rewrite <- Hdel. by repeat split.
Qed.

(** ** The dirty flag *)

(** C10. The dirty flag is false in a new scheduler.  ReadyToRun,
    FindNextToRun, Run, CheckToBeDestroyed, Print, maintainQueues and
    incTickToThreads leave it as it is, so after any calls that complete
    getDirty gives the argument of the last setDirty among them, and false
    when there is none. *)
Theorem C10_dirty_changed_by_setDirty_only cur lvl ticks toFile h cs s' :
  perform_all cs (Scheduler_new cur lvl ticks toFile h) = Ok tt s' ->
  getDirty (Scheduler_new cur lvl ticks toFile h) = false /\
  getDirty s' = dirty_after cs false /\
  (forall c s1 s2,
     (forall d, c <> CallSetDirty d) ->
     perform c s1 = Ok tt s2 -> getDirty s2 = getDirty s1) /\
  (forall d s1, exists s2, setDirty d s1 = Ok tt s2 /\ getDirty s2 = d).
Proof.
  intros E. split; [reflexivity |].
  split; [by rewrite (perform_all_dirty _ _ _ E) |].
  split.
  - intros c s1 s2 Hc E1. by apply (keeps_dirty_perform c Hc s1 tt s2).
  - intros d s1. by eexists.
Qed.

(** ** Selection *)

(** What a call of FindNextToRun does, by cases. *)
Lemma FindNextToRun_cases s t :
  level s = IntOff ->
  bands_live s ->
  heap s !! currentThread s = Some t ->
  exists r s',
    FindNextToRun s = Ok r s' /\
    ((bands s = [] /\ r = None /\ s' = s) \/
     (bands s <> [] /\
      heap s' = <[currentThread s := closed_out t]> (heap s) /\
      (from_band1 (at_selection s) r s' \/
       from_band2 (at_selection s) r s' \/
       from_band3 (at_selection s) r s'))).
Proof.
  intros Hl Hlive Ht. rewrite FindNextToRun_findNext by done.
  destruct (decide (bands s = [])) as [Hempty | Hne].
  - exists None, s. split; [by apply findNext_empty | by left].
  - destruct (findNext_wp s t Hlive Hne Ht) as (r & s' & E & Hh & Hsel).
    exists r, s'. split; [exact E |]. right.
    by rewrite <- (at_selection_heap s t).
Qed.

(** When some entry of band 1 has an estimate below the initial value of
    [min_burst], FindNextToRun returns the first-inserted entry of least
    estimate of band 1 and takes exactly that entry out of band 1. *)
Lemma FindNextToRun_band1 s t :
  level s = IntOff ->
  bands_live s ->
  heap s !! currentThread s = Some t ->
  (exists q, q ∈ L1 s /\ getExecutionTime (at_selection s) q < 0x7fffffff) ->
  exists r s', FindNextToRun s = Ok r s' /\ from_band1 (at_selection s) r s'.
Proof.
  intros Hl Hlive Ht (q & Hq & Hlt).
  destruct (FindNextToRun_cases s t Hl Hlive Ht)
    as (r & s' & E & [(Hempty & _) | (_ & _ & Hsel)]).
  - unfold bands in Hempty. apply app_eq_nil in Hempty as [E1 _].
    rewrite E1 in Hq. by apply elem_of_nil in Hq.
  - exists r, s'. split; [exact E |].
    destruct (at_selection_lists s) as (E1 & _).
    destruct Hsel as [Hb1 | [(Hnone & _) | (Hnone & _)]]; [done | |];
      specialize (Hnone q); rewrite E1 in Hnone; specialize (Hnone Hq); lia.
Qed.

(** FindNextToRun returns none exactly when no band gives a thread: band 3
    is empty, every estimate in band 1 is at least the initial value of
    [min_burst] and every priority in band 2 is at most the initial value of
    [max_priority]. *)
Lemma FindNextToRun_none s t :
  level s = IntOff ->
  bands_live s ->
  heap s !! currentThread s = Some t ->
  exists r s',
    FindNextToRun s = Ok r s' /\
    (r = None <->
     band1_gives_nothing (at_selection s) /\
     band2_gives_nothing (at_selection s) /\ L3 s = []).
Proof.
  intros Hl Hlive Ht.
  destruct (FindNextToRun_cases s t Hl Hlive Ht)
    as (r & s' & E & [(Hempty & Hr & Hs) | (_ & _ & Hsel)]);
    exists r, s'; (split; [exact E |]);
    destruct (at_selection_lists s) as (E1 & E2 & E3).
  - subst r s'. unfold bands in Hempty. apply app_eq_nil in Hempty as [H1 Hempty].
    apply app_eq_nil in Hempty as [H2 H3].
    split; [| done]. intros _. unfold band1_gives_nothing, band2_gives_nothing.
    rewrite E1, E2, H1, H2.
    repeat split; try done; intros q Hq; by apply elem_of_nil in Hq.
  - destruct Hsel as [Hb | [Hb | Hb]].
    + destruct Hb as (i & p & -> & Hfl & Hlt & _). split; [done |].
      intros (Hnone & _). destruct Hfl as (Hi & _).
      apply list_elem_of_lookup_2 in Hi. specialize (Hnone p Hi). lia.
    + destruct Hb as (_ & i & p & -> & Hfg & Hlt & _). split; [done |].
      intros (_ & Hnone & _). destruct Hfg as (Hi & _).
      apply list_elem_of_lookup_2 in Hi. specialize (Hnone p Hi). lia.
    + destruct Hb as (Hn1 & Hn2 & -> & _). rewrite E3.
      destruct (L3 s); split; try done. by intros (_ & _ & ?).
Qed.

(** The thread returned leaves the bands, and nothing else moves. *)
Lemma FindNextToRun_bands s t :
  level s = IntOff ->
  bands_live s ->
  heap s !! currentThread s = Some t ->
  exists r s',
    FindNextToRun s = Ok r s' /\
    match r with
    | Some p => bands s ≡ₚ p :: bands s'
    | None => bands s' = bands s
    end.
Proof.
  intros Hl Hlive Ht.
  destruct (FindNextToRun_cases s t Hl Hlive Ht)
    as (r & s' & E & [(_ & Hr & Hs) | (_ & _ & Hsel)]);
    exists r, s'; (split; [exact E |]); [by subst |].
  unfold from_band1, from_band2, from_band3 in Hsel.
  destruct (at_selection_lists s) as (E1 & E2 & E3).
  rewrite E1, E2, E3 in Hsel. unfold bands.
  destruct Hsel as [(i & p & -> & (Hi & _) & _ & H1 & H2 & H3)
                   | [(_ & i & p & -> & (Hi & _) & _ & H2 & H1 & H3)
                     | (_ & _ & -> & H3 & H1 & H2)]];
    rewrite H1, H2, H3.
  - change (L1 s ++ L2 s ++ L3 s ≡ₚ (p :: delete i (L1 s)) ++ L2 s ++ L3 s).
    apply Permutation_app_tail. by apply delete_Permutation.
  - trans (L1 s ++ (p :: delete i (L2 s)) ++ L3 s).
    + apply Permutation_app_head, Permutation_app_tail.
      by apply delete_Permutation.
    + simpl. first [apply Permutation_middle
                   | symmetry; apply Permutation_middle].
  - destruct (L3 s) as [|p l3]; simpl; [done |].
    trans (L1 s ++ p :: L2 s ++ l3).
    + apply Permutation_app_head.
      first [apply Permutation_middle | symmetry; apply Permutation_middle].
    + first [apply Permutation_middle | symmetry; apply Permutation_middle].
Qed.

(** With maintainQueues_bands and ReadyToRun_sequence_wp: the scheduler
    keeps every thread at most once in its bands, as long as only threads
    that are in no band are admitted. *)
Lemma FindNextToRun_NoDup s t :
  level s = IntOff ->
  bands_live s ->
  heap s !! currentThread s = Some t ->
  NoDup (bands s) ->
  exists r s', FindNextToRun s = Ok r s' /\ NoDup (bands s').
Proof.
  intros Hl Hlive Ht Hnodup.
  destruct (FindNextToRun_bands s t Hl Hlive Ht) as (r & s' & E & Hb).
  exists r, s'. split; [exact E |].
  destruct r as [p |]; [| by rewrite Hb].
  rewrite Hb in Hnodup. by apply NoDup_cons in Hnodup as [_ ?].
Qed.

(** C2. FindNextToRun consults the bands in the order 1, 2, 3.  A band gives
    a candidate when its scan finds one: in band 1 an estimate below the
    initial [min_burst], in band 2 a priority above the initial
    [max_priority].  When band 1 gives a candidate, the thread returned is
    taken from band 1 and bands 2 and 3 are left alone.  When band 1 gives
    none and band 2 gives one, the thread returned is the first-inserted
    entry of greatest priority of band 2, and exactly that entry is removed.
    When neither gives one, the front of band 3 is returned and removed (and
    none is returned when band 3 is empty).  Estimates and priorities are
    those the scan reads, after preprocessThreads. *)
Theorem C2_bands_in_strict_order s t :
  level s = IntOff ->
  bands_live s ->
  heap s !! currentThread s = Some t ->
  exists r s',
    FindNextToRun s = Ok r s' /\
    ((exists q, q ∈ L1 s /\
                getExecutionTime (at_selection s) q < 0x7fffffff) ->
     exists i p,
       r = Some p /\ L1 s !! i = Some p /\
       L1 s' = delete i (L1 s) /\ L2 s' = L2 s /\ L3 s' = L3 s) /\
    ((forall q, q ∈ L1 s ->
                0x7fffffff <= getExecutionTime (at_selection s) q) ->
     (exists q, q ∈ L2 s /\ -1 < getPriority (at_selection s) q) ->
     exists i p,
       r = Some p /\
       first_greatest (getPriority (at_selection s)) (L2 s) i p /\
       L2 s' = delete i (L2 s) /\ L1 s' = L1 s /\ L3 s' = L3 s) /\
    ((forall q, q ∈ L1 s ->
                0x7fffffff <= getExecutionTime (at_selection s) q) ->
     (forall q, q ∈ L2 s -> getPriority (at_selection s) q <= -1) ->
     r = head (L3 s) /\
     L3 s' = tail (L3 s) /\ L1 s' = L1 s /\ L2 s' = L2 s).
Proof.
  intros Hl Hlive Ht.
  destruct (FindNextToRun_cases s t Hl Hlive Ht)
    as (r & s' & E & [(Hempty & Hr & Hs) | (_ & _ & Hsel)]);
    exists r, s'; (split; [exact E |]).
  - subst r s'. unfold bands in Hempty. apply app_eq_nil in Hempty as [H1 Hempty].
    apply app_eq_nil in Hempty as [H2 H3].
    split; [| split].
    + intros (q & Hq & _). rewrite H1 in Hq. by apply elem_of_nil in Hq.
    + intros _ (q & Hq & _). rewrite H2 in Hq. by apply elem_of_nil in Hq.
    + intros _ _. by rewrite H3.
  - unfold from_band1, from_band2, from_band3, band1_gives_nothing,
      band2_gives_nothing in Hsel.
    destruct (at_selection_lists s) as (E1 & E2 & E3).
    rewrite E1, E2, E3 in Hsel.
    destruct Hsel as [(i & p & -> & Hfl & Hlt & H1 & H2 & H3)
                     | [(Hn1 & i & p & -> & Hfg & Hgt & H2 & H1 & H3)
                       | (Hn1 & Hn2 & -> & H3 & H1 & H2)]].
    + assert (Hp : p ∈ L1 s)
        by (eapply list_elem_of_lookup_2; apply Hfl).
      split; [| split].
      * intros _. exists i, p. repeat split; try done. apply Hfl.
      * intros Hn1. specialize (Hn1 p Hp). lia.
      * intros Hn1. specialize (Hn1 p Hp). lia.
    + assert (Hp : p ∈ L2 s)
        by (eapply list_elem_of_lookup_2; apply Hfg).
      split; [| split].
      * intros (q & Hq & Hlt). specialize (Hn1 q Hq). lia.
      * intros _ _. by exists i, p.
      * intros _ Hn2. specialize (Hn2 p Hp). lia.
    + split; [| split].
      * intros (q & Hq & Hlt). specialize (Hn1 q Hq). lia.
      * intros _ (q & Hq & Hgt). specialize (Hn2 q Hq). lia.
      * done.
Qed.

(** C5, in the form the code satisfies.  A call of FindNextToRun with a
    thread in some band first runs preprocessThreads and then scans the bands in the state it
    leaves: the record of the current thread has its estimate recomputed by
    calNewExecuteTime, its last tick saved and its used time set to zero.
    No pass is applied to the ready threads: the record of every thread but
    the current one is what it was before the call.  With all three bands
    empty the call returns none and leaves the state as it was. *)
Theorem C5_closes_out_current_thread_only s t :
  level s = IntOff ->
  bands_live s ->
  heap s !! currentThread s = Some t ->
  (bands s <> [] ->
   exists r s',
     FindNextToRun s = Ok r s' /\
     preprocessThreads s = Ok tt (at_selection s) /\
     findNext s = findNext_bands (at_selection s) /\
     heap (at_selection s)
     = <[currentThread s :=
           setTimeUsed 0 (saveLastTick (calNewExecuteTime t))]> (heap s) /\
     heap s' = heap (at_selection s) /\
     (exists t', heap s' !! currentThread s = Some t' /\ timeUsed t' = 0) /\
     (forall p, p <> currentThread s -> heap s' !! p = heap s !! p)) /\
  (bands s = [] -> FindNextToRun s = Ok None s).
Proof.
  intros Hl Hlive Ht. split.
  - intros Hne.
    destruct (findNext_wp s t Hlive Hne Ht) as (r & s' & E & Hh & _).
    exists r, s'. rewrite FindNextToRun_findNext by done.
    split; [exact E |].
    split; [by apply (preprocessThreads_exec s t) |].
    split; [by apply (findNext_nonempty s t) |].
    rewrite Hh, (at_selection_heap s t Ht).
    split; [done |]. split; [done |]. split.
    + eexists. by rewrite lookup_insert_eq.
    + intros p Hp. by rewrite lookup_insert_ne.
  - intros Hempty. rewrite FindNextToRun_findNext by done.
    by apply findNext_empty.
Qed.

End Properties.

(** ** Instances of the properties *)

Lemma C3_witness :
  Forall (live aged_state) (L2 aged_state) /\
  Forall (live aged_state) (L3 aged_state) /\
  exists r s',
    maintainQueues aged_state = Ok r s' /\ r = 1 /\
    (5%nat ∈ L1 s' /\ 4%nat ∈ L1 s' /\ 3%nat ∈ L2 s' /\ 6%nat ∈ L3 s').
Proof.
  assert (Hl2 : Forall (live aged_state) (L2 aged_state))
    by (repeat constructor; by eexists).
  assert (Hl3 : Forall (live aged_state) (L3 aged_state))
    by (repeat constructor; by eexists).
  split; [exact Hl2 |]. split; [exact Hl3 |].
  destruct (C3_maintainQueues_promotes aged_state Hl2 Hl3)
    as (r & s' & E & _ & H32 & H21 & H33 & _ & _ & _ & _ & _ & Hr1 & _).
  exists r, s'. split; [exact E |]. split.
  - apply Hr1. exists 4%nat. split; [left; by right; left | by vm_compute].
  - split; [apply (H32 5%nat); [by do 2 right; left | by vm_compute..] |].
    split; [apply (H21 4%nat); [by right; left | by vm_compute] |].
    split; [apply (H32 3%nat); [by left | by vm_compute..] |].
    apply (H33 6%nat); [by right; left | by vm_compute].
Defined.

Lemma C9_witness :
  Forall (live aged_state) (L2 aged_state) /\
  Forall (live aged_state) (L3 aged_state) /\
  exists r s',
    maintainQueues aged_state = Ok r s' /\
    L3 s' = [6%nat] /\ L2 s' = [7%nat; 3%nat] /\
    L1 s' = [8%nat; 4%nat; 5%nat].
Proof.
  assert (Hl2 : Forall (live aged_state) (L2 aged_state))
    by (repeat constructor; by eexists).
  assert (Hl3 : Forall (live aged_state) (L3 aged_state))
    by (repeat constructor; by eexists).
  split; [exact Hl2 |]. split; [exact Hl3 |].
  destruct (C9_maintainQueues_keeps_order aged_state Hl2 Hl3)
    as (r & s' & E & H3 & H2 & H1).
  exists r, s'. split; [exact E |].
  rewrite H3, H2, H1. by vm_compute.
Defined.

Lemma C4_witness :
  level scenario_state = IntOff /\
  Forall (live scenario_state) [1%nat; 2%nat; 3%nat] /\
  exists s',
    forEach [1%nat; 2%nat; 3%nat] ReadyToRun scenario_state = Ok tt s' /\
    L1 s' = [1%nat] /\ L2 s' = [2%nat; 3%nat] /\ L3 s' = [].
Proof.
  assert (Hlive : Forall (live scenario_state) [1%nat; 2%nat; 3%nat])
    by (repeat constructor; by eexists).
  split; [reflexivity |]. split; [exact Hlive |].
  destruct (C4_ReadyToRun_lands_in_band [1%nat; 2%nat; 3%nat] scenario_state
              eq_refl Hlive) as (s' & E & H1 & H2 & H3 & _).
  exists s'. split; [exact E |]. rewrite H1, H2, H3. by vm_compute.
Defined.

Lemma C7_witness :
  bands_live aged_state /\
  NoDup (bands aged_state) /\
  exists s',
    incTickToThreads 1500 aged_state = Ok tt s' /\
    heap s' !! 3%nat = Some (incTickWaited 1 (thread_of 3 60 1)) /\
    heap s' !! 0%nat = Some main_thread.
Proof.
  assert (Hlive : bands_live aged_state)
    by (repeat constructor; by eexists).
  assert (Hnodup : NoDup (bands aged_state)).
  { refine (bool_decide_unpack _ _). by vm_compute. }
  split; [exact Hlive |]. split; [exact Hnodup |].
  destruct (C7_incTickToThreads_adds_one 1500 aged_state Hlive Hnodup)
    as (s' & E & Hinc & Hsame & _).
  exists s'. split; [exact E |]. split.
  - apply (Hinc 3%nat); [| done | done].
    refine (bool_decide_unpack _ _). by vm_compute.
  - rewrite (Hsame 0%nat); [done |]. by right.
Defined.

Lemma C8_witness :
  level waiting_state = IntOff /\
  heap waiting_state !! 1%nat = Some (thread_of 1 10 4) /\
  heap waiting_state !! currentThread waiting_state = Some main_thread /\
  @CheckOverflow sample_externals (@saved sample_externals main_thread) = true /\
  exists s1 s2,
    @Run_dispatch sample_externals 1%nat true waiting_state = Ok tt s1 /\
    toBeDestroyed s1 = Some 0%nat /\
    CheckToBeDestroyed s1 = Ok tt s2 /\
    deleted s2 = [0%nat] /\ toBeDestroyed s2 = None.
Proof.
  split; [reflexivity |]. split; [reflexivity |]. split; [reflexivity |].
  split; [reflexivity |].
  destruct (@C8_finishing_thread_destroyed_once sample_externals
              waiting_state 1%nat (thread_of 1 10 4) main_thread
              eq_refl eq_refl eq_refl eq_refl) as [_ Hrun].
  destruct (Hrun eq_refl)
    as (s1 & s2 & E1 & Htbd & _ & _ & E2 & Hdel & _ & Hnone & _).
  exists s1, s2. by repeat split.
Defined.

(** A run of calls through the whole interface: the flag follows setDirty
    alone. *)
Lemma C10_witness :
  exists s',
    @perform_all sample_externals
      [CallReadyToRun 1; CallSetDirty true; CallMaintainQueues;
       CallIncTickToThreads 7; CallFindNextToRun; CallPrint;
       CallCheckToBeDestroyed]
      (Scheduler_new 0 IntOff 100 false scenario_heap) = Ok tt s' /\
    getDirty s' = true.
Proof.
  eexists. split; [by vm_compute |].
  eapply (@C10_dirty_changed_by_setDirty_only sample_externals
            0%nat IntOff 100 false scenario_heap
            [CallReadyToRun 1; CallSetDirty true; CallMaintainQueues;
             CallIncTickToThreads 7; CallFindNextToRun; CallPrint;
             CallCheckToBeDestroyed]).
  by vm_compute.
Defined.

Lemma C2_witness :
  (level aged_state = IntOff /\
   bands_live aged_state /\
   heap aged_state !! currentThread aged_state = Some main_thread /\
   exists s',
     @FindNextToRun sample_externals aged_state = Ok (Some 8%nat) s' /\
     L1 s' = [] /\ L2 s' = [7%nat; 4%nat]) /\
  (level tie_state = IntOff /\
   bands_live tie_state /\
   heap tie_state !! currentThread tie_state = Some main_thread /\
   exists s',
     @FindNextToRun sample_externals tie_state = Ok (Some 3%nat) s' /\
     L1 s' = [] /\ L2 s' = [2%nat; 4%nat] /\ L3 s' = [5%nat; 6%nat]) /\
  (level fifo_state = IntOff /\
   bands_live fifo_state /\
   heap fifo_state !! currentThread fifo_state = Some main_thread /\
   exists s',
     @FindNextToRun sample_externals fifo_state = Ok (Some 1%nat) s' /\
     L1 s' = [] /\ L2 s' = [] /\ L3 s' = [2%nat; 3%nat]).
Proof.
  split; [| split].
  - (* band 1 gives a candidate *)
    assert (Hlive : bands_live aged_state)
      by (repeat constructor; by eexists).
    split; [reflexivity |]. split; [exact Hlive |]. split; [reflexivity |].
    destruct (@C2_bands_in_strict_order sample_externals aged_state
                main_thread eq_refl Hlive eq_refl) as (r & s' & E & Hb1 & _).
    destruct Hb1 as (i & p & -> & Hi & H1 & H2 & _).
    { exists 8%nat. split; [by left | by vm_compute]. }
    destruct i as [|i]; [| by destruct i].
    injection Hi as <-. exists s'. split; [exact E |]. by rewrite H1, H2.
  - (* band 1 gives none, band 2 has two entries of greatest priority *)
    assert (Hlive : bands_live tie_state)
      by (repeat constructor; by eexists).
    split; [reflexivity |]. split; [exact Hlive |]. split; [reflexivity |].
    destruct (@C2_bands_in_strict_order sample_externals tie_state
                main_thread eq_refl Hlive eq_refl)
      as (r & s' & E & _ & Hb2 & _).
    destruct Hb2 as (i & p & -> & (Hi & Hmax & Hfirst) & H2 & H1 & H3).
    { intros q Hq. by apply elem_of_nil in Hq. }
    { exists 3%nat. split; [by right; left | by vm_compute]. }
    assert (E2 : getPriority (@at_selection sample_externals tie_state) 2%nat
                 = 70) by (by vm_compute).
    assert (E3 : getPriority (@at_selection sample_externals tie_state) 3%nat
                 = 90) by (by vm_compute).
    assert (E4 : getPriority (@at_selection sample_externals tie_state) 4%nat
                 = 90) by (by vm_compute).
    destruct i as [|[|[|i]]]; vm_compute in Hi; try discriminate;
      injection Hi as <-.
    + specialize (Hmax 1%nat 3%nat eq_refl). rewrite E2, E3 in Hmax. lia.
    + exists s'. split; [exact E |]. by rewrite H1, H2, H3.
    + specialize (Hfirst 1%nat 3%nat eq_refl ltac:(lia)).
      rewrite E3, E4 in Hfirst. lia.
  - (* bands 1 and 2 give none: the front of band 3 *)
    assert (Hlive : bands_live fifo_state)
      by (repeat constructor; by eexists).
    split; [reflexivity |]. split; [exact Hlive |]. split; [reflexivity |].
    destruct (@C2_bands_in_strict_order sample_externals fifo_state
                main_thread eq_refl Hlive eq_refl)
      as (r & s' & E & _ & _ & Hb3).
    destruct Hb3 as (-> & H3 & H1 & H2).
    { intros q Hq. by apply elem_of_nil in Hq. }
    { intros q Hq. by apply elem_of_nil in Hq. }
    exists s'. split; [exact E |]. by rewrite H1, H2, H3.
Defined.

Lemma C5_witness :
  level waiting_state = IntOff /\
  bands_live waiting_state /\
  heap waiting_state !! currentThread waiting_state = Some main_thread /\
  (exists r s',
     @FindNextToRun sample_externals waiting_state = Ok r s' /\
     heap s' !! 1%nat = Some (thread_of 1 10 4) /\
     (exists t', heap s' !! 0%nat = Some t' /\ timeUsed t' = 0)) /\
  @FindNextToRun sample_externals idle_state = Ok None idle_state.
Proof.
  assert (Hlive : bands_live waiting_state)
    by (repeat constructor; by eexists).
  assert (Hidle : bands_live idle_state) by constructor.
  split; [reflexivity |]. split; [exact Hlive |]. split; [reflexivity |].
  split.
  - destruct (@C5_closes_out_current_thread_only sample_externals
                waiting_state main_thread eq_refl Hlive eq_refl)
      as [Hne _].
    destruct (Hne ltac:(discriminate))
      as (r & s' & E & _ & _ & _ & _ & Hcur & Hrest).
    exists r, s'. split; [exact E |]. split; [| exact Hcur].
    by rewrite (Hrest 1%nat).
  - by apply (@C5_closes_out_current_thread_only sample_externals
                idle_state main_thread eq_refl Hidle eq_refl).
Defined.

(** ** Where the code and the description part *)

(** C5, as it was stated, fails.  From [waiting_state] the thread that waits
    in band 3 is returned with its record untouched, and from [idle_state],
    where no thread is ready, the used time of the running thread stays 5. *)
Lemma C5_counterexample :
  ~ @books_and_closes_out sample_externals waiting_state /\
  ~ @books_and_closes_out sample_externals idle_state.
Proof.
  split; intros (r & s' & E & Hbook & t & Ht & Hused).
  - vm_compute in E. injection E as <- <-.
    apply (Hbook 1%nat); [by left | done | by vm_compute].
  - vm_compute in E. injection E as <- <-.
    vm_compute in Ht. injection Ht as <-. done.
Qed.

(** C1, at a state where the code departs from it.  Band 1 holds thread 1,
    whose estimate 0x7fffffff equals the initial value of [min_burst]; the
    strict comparison of findNextL1 never selects it, and FindNextToRun
    returns thread 2 from band 2 and leaves band 1 as it was. *)
Theorem C1_band1_entry_with_largest_estimate_skipped :
  L1 sentinel_state = [1%nat] /\
  getExecutionTime (@at_selection sample_externals sentinel_state) 1%nat
  = 0x7fffffff /\
  exists s',
    @FindNextToRun sample_externals sentinel_state = Ok (Some 2%nat) s' /\
    L1 s' = [1%nat] /\ L2 s' = [] /\ L3 s' = [].
Proof.
  split; [reflexivity |]. split; [by vm_compute |].
  eexists. split; [by vm_compute | done].
Qed.

(** C6, at a state where the code departs from it.  Band 1 holds thread 1
    with estimate 0x7fffffff and bands 2 and 3 are empty: FindNextToRun
    returns none although a thread is ready, and the thread stays in
    band 1. *)
Theorem C6_none_returned_with_ready_thread :
  bands sentinel_alone_state = [1%nat] /\
  exists s',
    @FindNextToRun sample_externals sentinel_alone_state = Ok None s' /\
    bands s' = [1%nat].
Proof.
  split; [reflexivity |].
  eexists. split; [by vm_compute | done].
Qed.

(** * Further properties *)

(** ** What the queue operations leave alone *)

Create HintDb fields.

Section KernelFields.

Context `{ThreadExternals} {X : Type} (f : State -> X).

Hypothesis f_L1 : forall v s, f (with_L1 v s) = f s.
Hypothesis f_L2 : forall v s, f (with_L2 v s) = f s.
Hypothesis f_L3 : forall v s, f (with_L3 v s) = f s.
Hypothesis f_heap : forall v s, f (with_heap v s) = f s.
Hypothesis f_dumpfile : forall v s, f (with_dumpfile v s) = f s.
Hypothesis f_cout : forall v s, f (with_cout v s) = f s.

Lemma field_L_Append i item : keeps f (L_Append i item).
Proof.
  apply keeps_modify. intros s. destruct i as [|[|[|[|i]]]]; simpl; auto.
Qed.

Lemma field_L_Remove i item : keeps f (L_Remove i item).
Proof.
  apply keeps_modify. intros s. destruct i as [|[|[|[|i]]]]; simpl; auto.
Qed.

Hint Resolve field_L_Append field_L_Remove : fields.

Ltac field_step :=
  first
    [ solve [auto with fields nocore]
    | apply keeps_ret
    | apply keeps_gets
    | apply keeps_ASSERT
    | apply keeps_deref
    | apply keeps_bind; [| intros ?]
    | apply keeps_modify; solve [auto]
    | apply keeps_call; solve [auto]
    | apply keeps_emit; solve [auto]
    | apply keeps_forEach; intros ?
    | match goal with
      | |- keeps _ (if ?b then _ else _) => destruct b
      | |- keeps _ (match ?x with Some _ => _ | None => _ end) => destruct x
      | |- keeps _ (let '(_, _) := ?x in _) => destruct x
      end ].

Lemma field_ReadyToRun thread : keeps f (ReadyToRun thread).
Proof. unfold ReadyToRun. repeat field_step. Qed.

Lemma field_promote_loop src dst bound it :
  forall temp flag, keeps f (promote_loop src dst bound it temp flag).
Proof.
  induction it as [|item it IH]; intros temp flag; simpl; repeat field_step.
Qed.

Hint Resolve field_promote_loop : fields.

Lemma field_maintainQueues : keeps f maintainQueues.
Proof. unfold maintainQueues. repeat field_step. Qed.

Lemma field_incTickToThreads amount : keeps f (incTickToThreads amount).
Proof. unfold incTickToThreads. repeat field_step. Qed.

Lemma field_Print : keeps f Print.
Proof. unfold Print, cout_line, ThreadPrint. repeat field_step. Qed.

Lemma field_findNextL1_loop it :
  forall best result, keeps f (findNextL1_loop it best result).
Proof.
  induction it as [|item it IH]; intros best result; simpl; repeat field_step.
Qed.

Lemma field_findNextL2_loop it :
  forall best result, keeps f (findNextL2_loop it best result).
Proof.
  induction it as [|item it IH]; intros best result; simpl; repeat field_step.
Qed.

Lemma field_take_from i result : keeps f (take_from i result).
Proof. unfold take_from. repeat field_step. Qed.

Hint Resolve field_findNextL1_loop field_findNextL2_loop field_take_from
  : fields.

Lemma field_findNext : keeps f findNext.
Proof.
  unfold findNext, findNext_bands, preprocessThreads, findNextL1, findNextL2,
    findNextL3.
  repeat field_step.
Qed.

Lemma field_FindNextToRun : keeps f FindNextToRun.
Proof.
  unfold FindNextToRun.
  apply keeps_bind; [apply keeps_gets | intros lvl].
  apply keeps_bind; [apply keeps_ASSERT | intros _].
  apply field_findNext.
Qed.

Lemma field_queue_call c : queue_call c = true -> keeps f (perform c).
Proof.
  destruct c; try discriminate; intros _; simpl.
  - apply field_ReadyToRun.
  - apply keeps_bind; [apply field_FindNextToRun | intros; apply keeps_ret].
  - apply field_Print.
  - apply keeps_bind; [apply field_maintainQueues | intros; apply keeps_ret].
  - apply field_incTickToThreads.
Qed.

End KernelFields.

(** ** Lists under filters *)

Lemma filter_all (P : nat -> Prop) `{forall x, Decision (P x)} (l : list nat) :
  Forall P l -> filter P l = l.
Proof.
  induction 1 as [|x l Hx Hl IH]; [done |].
  rewrite filter_cons_True by done. by rewrite IH.
Qed.

Lemma filter_none (P : nat -> Prop) `{forall x, Decision (P x)} (l : list nat) :
  Forall (fun x => ~ P x) l -> filter P l = [].
Proof.
  induction 1 as [|x l Hx Hl IH]; [done |].
  by rewrite filter_cons_False.
Qed.

Lemma filter_nil_Forall (P : nat -> Prop) `{forall x, Decision (P x)}
    (l : list nat) :
  filter P l = [] -> Forall (fun x => ~ P x) l.
Proof.
  intros E. apply Forall_forall. intros x Hx HP.
  assert (Hin : x ∈ filter P l) by (by apply list_elem_of_filter).
  rewrite E in Hin. by apply elem_of_nil in Hin.
Qed.

Lemma filter_complement_length (P : nat -> Prop) `{forall x, Decision (P x)}
    (l : list nat) :
  (length (filter P l) + length (filter (fun x => ~ P x) l) = length l)%nat.
Proof. by rewrite <- length_app, filter_app_complement. Qed.

Section MoreFacts.

Context `{ThreadExternals}.

(** ** Selection *)

(** X1. When some entry of band 1 has an estimate below 0x7fffffff, the
    initial value of [min_burst], FindNextToRun returns the entry of band 1
    of least estimate, the first-inserted one among equals, removes exactly
    that entry from band 1 and leaves bands 2 and 3 as they were.  The
    estimates are those read after preprocessThreads. *)
Theorem X1_band1_shortest_estimate_first s t :
  level s = IntOff ->
  bands_live s ->
  heap s !! currentThread s = Some t ->
  (exists q, q ∈ L1 s /\ getExecutionTime (at_selection s) q < 0x7fffffff) ->
  exists i p s',
    FindNextToRun s = Ok (Some p) s' /\
    first_least (getExecutionTime (at_selection s)) (L1 s) i p /\
    L1 s' = delete i (L1 s) /\ L2 s' = L2 s /\ L3 s' = L3 s.
Proof.
  intros Hl Hlive Ht Hcand.
  destruct (FindNextToRun_band1 s t Hl Hlive Ht Hcand)
    as (r & s' & E & i & p & -> & Hfl & _ & H1 & H2 & H3).
  destruct (at_selection_lists s) as (E1 & E2 & E3).
  rewrite E1 in Hfl, H1. rewrite E2 in H2. rewrite E3 in H3.
  by exists i, p, s'.
Qed.

(** X2. FindNextToRun returns none exactly when no band gives a thread:
    every estimate in band 1 is at least 0x7fffffff, every priority in band
    2 is at most -1, and band 3 is empty.  In particular it returns none
    when all three bands are empty. *)
Theorem X2_none_exactly_when_no_band_gives s t :
  level s = IntOff ->
  bands_live s ->
  heap s !! currentThread s = Some t ->
  exists r s',
    FindNextToRun s = Ok r s' /\
    (r = None <->
     (forall q, q ∈ L1 s ->
                0x7fffffff <= getExecutionTime (at_selection s) q) /\
     (forall q, q ∈ L2 s -> getPriority (at_selection s) q <= -1) /\
     L3 s = []) /\
    (bands s = [] -> r = None /\ s' = s).
Proof.
  intros Hl Hlive Ht.
  destruct (FindNextToRun_none s t Hl Hlive Ht) as (r & s' & E & Hiff).
  exists r, s'. split; [exact E |].
  unfold band1_gives_nothing, band2_gives_nothing in Hiff.
  destruct (at_selection_lists s) as (E1 & E2 & _).
  rewrite E1, E2 in Hiff. split; [exact Hiff |].
  intros Hempty. rewrite FindNextToRun_findNext, findNext_empty in E by done.
  by injection E as <- <-.
Qed.

(** X3. The thread FindNextToRun returns was in a band and is in none
    afterwards; the other entries stay.  Bands that hold every thread at
    most once, all of them live, are left that way, so that the call can be
    repeated. *)
Theorem X3_returned_thread_leaves_bands s t :
  level s = IntOff ->
  bands_live s ->
  heap s !! currentThread s = Some t ->
  NoDup (bands s) ->
  exists r s',
    FindNextToRun s = Ok r s' /\
    NoDup (bands s') /\ bands_live s' /\
    live s' (currentThread s') /\
    match r with
    | Some p => p ∈ bands s /\ (p ∉ bands s') /\ bands s ≡ₚ p :: bands s'
    | None => bands s' = bands s
    end.
Proof.
  intros Hl Hlive Ht Hnodup.
  destruct (FindNextToRun_bands s t Hl Hlive Ht) as (r & s' & E & Hb).
  assert (Hcur : currentThread s' = currentThread s)
    by (by apply (field_FindNextToRun currentThread) in E).
  assert (Hsub : forall p, p ∈ bands s' -> p ∈ bands s).
  { intros p Hp. destruct r as [q |]; [| by rewrite <- Hb].
    rewrite Hb. by right. }
  assert (Hheap : forall p, live s p -> live s' p).
  { destruct (FindNextToRun_cases s t Hl Hlive Ht)
      as (r0 & s0 & E0 & [(_ & _ & Hs) | (_ & Hh & _)]);
      rewrite E in E0; injection E0 as <- <-; [by subst |].
    intros p Hp. unfold live in *. rewrite Hh, lookup_insert_is_Some'. auto. }
  exists r, s'. split; [exact E |].
  assert (Hnodup' : NoDup (bands s')).
  { destruct r as [p |]; [| by rewrite Hb].
    rewrite Hb in Hnodup. by apply NoDup_cons in Hnodup as [_ ?]. }
  split; [exact Hnodup' |]. split; [| split].
  - apply Forall_forall. intros p Hp. apply Hheap.
    by apply (proj1 (Forall_forall _ _) Hlive), Hsub.
  - rewrite Hcur. apply Hheap. by exists t.
  - destruct r as [p |]; [| done].
    split; [rewrite Hb; by left |]. split; [| done].
    rewrite Hb in Hnodup. by apply NoDup_cons in Hnodup as [? _].
Qed.

(** ** Aging *)

(** X4. maintainQueues loses no entry and makes none: the entries of the
    three bands after the call are those before it, rearranged.  It writes
    no thread object.  Bands that hold every thread at most once still do
    afterwards. *)
Theorem X4_maintainQueues_rearranges_entries s :
  Forall (live s) (L2 s) ->
  Forall (live s) (L3 s) ->
  exists r s',
    maintainQueues s = Ok r s' /\
    bands s' ≡ₚ bands s /\
    heap s' = heap s /\
    (NoDup (bands s) -> NoDup (bands s')).
Proof.
  intros Hl2 Hl3.
  destruct (maintainQueues_bands s Hl2 Hl3) as (r & s' & E & Hperm).
  destruct (maintainQueues_wp s Hl2 Hl3) as (r0 & s0 & E0 & Hh & _).
  rewrite E in E0. injection E0 as <- <-.
  exists r, s'. split; [exact E |]. split; [exact Hperm |].
  split; [exact Hh |]. intros Hnodup. by rewrite Hperm.
Qed.

(** X5. A second call of maintainQueues right after the first, with no
    priority changed in between, moves nothing and returns 0. *)
Theorem X5_maintainQueues_settles s :
  Forall (live s) (L2 s) ->
  Forall (live s) (L3 s) ->
  exists r s' s'',
    maintainQueues s = Ok r s' /\
    maintainQueues s' = Ok 0 s'' /\
    L1 s'' = L1 s' /\ L2 s'' = L2 s' /\ L3 s'' = L3 s'.
Proof.
  intros Hl2 Hl3.
  destruct (maintainQueues_wp s Hl2 Hl3)
    as (r & s' & E & Hh & H1 & H2 & H3 & _).
  cbn zeta in *.
  assert (Hprio : forall p, getPriority s' p = getPriority s p)
    by (intros p; unfold getPriority; by rewrite Hh).
  assert (Hlive : forall p, live s p -> live s' p)
    by (intros p; unfold live; by rewrite Hh).
  assert (Hl3' : Forall (live s') (L3 s')).
  { rewrite H3. apply Forall_forall. intros p Hp.
    apply list_elem_of_filter in Hp as [_ Hp].
    by apply Hlive, (proj1 (Forall_forall _ _) Hl3). }
  assert (Hl2' : Forall (live s') (L2 s')).
  { rewrite H2. apply Forall_forall. intros p Hp.
    apply list_elem_of_filter in Hp as [_ Hp].
    apply Hlive. apply elem_of_app in Hp as [Hp | Hp].
    - by apply (proj1 (Forall_forall _ _) Hl2).
    - apply list_elem_of_filter in Hp as [_ Hp].
      by apply (proj1 (Forall_forall _ _) Hl3). }
  destruct (maintainQueues_wp s' Hl2' Hl3')
    as (r' & s'' & E' & _ & H1' & H2' & H3' & Hr').
  cbn zeta in *.
  assert (Hto2 : filter (fun p => 50 <= getPriority s' p) (L3 s') = []).
  { apply filter_none. rewrite H3. apply Forall_forall. intros p Hp.
    apply list_elem_of_filter in Hp as [Hp _]. by rewrite Hprio. }
  rewrite Hto2, app_nil_r in *.
  assert (Hto1 : filter (fun p => 100 <= getPriority s' p) (L2 s') = []).
  { apply filter_none. rewrite H2. apply Forall_forall. intros p Hp.
    apply list_elem_of_filter in Hp as [Hp _]. by rewrite Hprio. }
  rewrite Hto1, app_nil_r in *.
  exists r, s', s''. split; [exact E |].
  rewrite Hr' in E'. split; [exact E' |]. split; [exact H1' |].
  split.
  - rewrite H2'. apply filter_all.
    by apply (filter_nil_Forall (fun p => 100 <= getPriority s' p)).
  - rewrite H3'. apply filter_all.
    by apply (filter_nil_Forall (fun p => 50 <= getPriority s' p)).
Qed.

(** X6. The value of maintainQueues is 0, 1 or 2, and it is 0 exactly when
    the call left all three lists as they were. *)
Theorem X6_maintainQueues_zero_iff_nothing_moved s :
  Forall (live s) (L2 s) ->
  Forall (live s) (L3 s) ->
  exists r s',
    maintainQueues s = Ok r s' /\
    (r = 0 \/ r = 1 \/ r = 2) /\
    (r = 0 <-> L1 s' = L1 s /\ L2 s' = L2 s /\ L3 s' = L3 s).
Proof.
  intros Hl2 Hl3.
  destruct (maintainQueues_wp s Hl2 Hl3)
    as (r & s' & E & Hh & H1 & H2 & H3 & Hr).
  cbn zeta in *. exists r, s'. split; [exact E |].
  set (to2 := filter (fun p => 50 <= getPriority s p) (L3 s)) in *.
  set (to1 := filter (fun p => 100 <= getPriority s p) (L2 s ++ to2)) in *.
  split.
  { rewrite Hr. destruct (bool_decide (to1 <> [])),
      (bool_decide (to2 <> [])); auto. }
  split.
  - intros Hzero. rewrite Hzero in Hr.
    assert (E1 : to1 = []).
    { destruct (decide (to1 = [])) as [? | Hne]; [done |].
      by rewrite bool_decide_eq_true_2 in Hr. }
    assert (E2 : to2 = []).
    { destruct (decide (to2 = [])) as [? | Hne]; [done |].
      rewrite bool_decide_eq_false_2 in Hr by (by intros []).
      by rewrite bool_decide_eq_true_2 in Hr. }
    rewrite H1, H2, H3, E1, E2, !app_nil_r.
    split; [done |]. split.
    + apply filter_all.
      apply (filter_nil_Forall (fun p => 100 <= getPriority s p)).
      unfold to1 in E1. by rewrite E2, app_nil_r in E1.
    + apply filter_all.
      by apply (filter_nil_Forall (fun p => 50 <= getPriority s p)).
  - intros (K1 & K2 & K3).
    assert (E1 : to1 = []).
    { rewrite H1 in K1. rewrite <- (app_nil_r (L1 s)) in K1 at 2.
      by apply app_inv_head in K1. }
    assert (E2 : to2 = []).
    { apply length_zero_iff_nil.
      assert (Hlen : (length to2 + length (L3 s') = length (L3 s))%nat).
      { rewrite H3.
        apply (filter_complement_length (fun p => 50 <= getPriority s p)). }
      rewrite K3 in Hlen. lia. }
    rewrite Hr, E1, E2.
    by rewrite !bool_decide_eq_false_2 by (by intros []).
Qed.

(** ** Assertions on the interrupt level *)

(** X8. With interrupts enabled, ReadyToRun and FindNextToRun stop at
    their assertion whatever the thread and the lists are, and so does Run,
    for either value of [finishing], once it has written its two log
    lines. *)
Theorem X8_interrupts_enabled_is_fatal s :
  level s = IntOn ->
  (forall thread, ReadyToRun thread s = AssertFailed) /\
  FindNextToRun s = AssertFailed /\
  (forall nextThread finishing tn told,
     heap s !! nextThread = Some tn ->
     heap s !! currentThread s = Some told ->
     Run_dispatch nextThread finishing s = AssertFailed).
Proof.
  intros Hl. split; [| split].
  - intros thread. unfold ReadyToRun, bind, gets, ASSERT. by rewrite Hl.
  - unfold FindNextToRun, bind, gets, ASSERT. by rewrite Hl.
  - intros nextThread finishing tn told Hn Ho.
    unfold Run_dispatch, bind, gets, deref, emit, ASSERT.
    rewrite Hn.
    destruct (dumpLogToFile s) eqn:Hdump; proj_simpl; rewrite Ho; proj_simpl;
      rewrite Hdump; proj_simpl; by rewrite Hl.
Qed.

(** ** The line ReadyToRun logs *)

Lemma ReadyToRun_exec s thread t :
  level s = IntOff ->
  heap s !! thread = Some t ->
  ReadyToRun thread s
  = let s1 := emitted (LogInserting (totalTicks s) (ID t) (queue_printed t))
                (with_heap (<[thread := setStatus READY t]> (heap s)) s) in
    let b := band_of_priority (priority t) in
    Ok tt (with_L b (L b s1 ++ [thread]) s1).
Proof.
  intros Hl Ht.
  unfold ReadyToRun, band_of_priority, emitted, bind, gets, ASSERT, call,
    deref, emit, L_Append, modify, List_.Append.
  rewrite Hl. cbn [IntStatus_eqb]. proj_simpl. rewrite Ht. proj_simpl.
  rewrite lookup_insert_eq. proj_simpl.
  cbn [priority setStatus ID].
  destruct (dumpLogToFile s), (priority t >=? 100), (priority t >=? 50);
    reflexivity.
Qed.

(** X9. ReadyToRun appends one line to the log in use ([dumpfile] when
    dumpLogToFile is set, [cout] otherwise): it names the thread and the
    queue number 3 - priority / 50, with C's division.  That number is the
    band the thread is appended to exactly when the priority lies between
    -49 and 149; outside that range the line names a queue the thread is
    not in. *)
Theorem X9_admission_line_and_band s thread t :
  level s = IntOff ->
  heap s !! thread = Some t ->
  exists s',
    ReadyToRun thread s = Ok tt s' /\
    (let line := LogInserting (totalTicks s) (ID t) (3 - priority t ÷ 50) in
     if dumpLogToFile s
     then dumpfile s' = dumpfile s ++ [line] /\ cout s' = cout s
     else cout s' = cout s ++ [line] /\ dumpfile s' = dumpfile s) /\
    L (band_of_priority (priority t)) s'
    = L (band_of_priority (priority t)) s ++ [thread] /\
    (3 - priority t ÷ 50 = Z.of_nat (band_of_priority (priority t))
     <-> -50 < priority t < 150).
Proof.
  intros Hl Ht. eexists. split; [by apply ReadyToRun_exec |].
  cbn zeta. unfold emitted, queue_printed, band_of_priority. proj_simpl.
  split; [| split].
  - destruct (dumpLogToFile s), (priority t >=? 100), (priority t >=? 50);
      by proj_simpl.
  - destruct (dumpLogToFile s), (priority t >=? 100), (priority t >=? 50);
      by proj_simpl.
  - destruct (Z.geb_spec (priority t) 100), (Z.geb_spec (priority t) 50);
      cbn [Z.of_nat Pos.of_succ_nat Pos.succ];
      Z.to_euclidean_division_equations; lia.
Qed.

(** ** Entries listed more than once *)

Lemma incTickWaited_add n m t :
  incTickWaited n (incTickWaited m t) = incTickWaited (m + n) t.
Proof. destruct t. unfold incTickWaited. simpl. f_equal. lia. Qed.

Lemma incTickWaited_zero t : incTickWaited 0 t = t.
Proof. destruct t. unfold incTickWaited. simpl. f_equal. lia. Qed.

Lemma tick_store_count cur it :
  forall (h : gmap nat Thread) p,
    tick_store cur it h !! p
    = incTickWaited (if decide (p = cur) then 0
                     else Z.of_nat (entries p it)) <$> h !! p.
Proof.
  induction it as [|item it IH]; intros h p.
  - unfold tick_store, entries. simpl.
    destruct (decide (p = cur)), (h !! p); simpl;
      by rewrite ?incTickWaited_zero.
  - unfold tick_store in *. simpl foldl. rewrite IH. unfold entries.
    destruct (decide (p = cur)) as [-> | Hcur].
    + destruct (bool_decide (item <> cur)) eqn:Hitem; [| done].
      apply bool_decide_eq_true_1 in Hitem. by rewrite lookup_alter_ne.
    + destruct (decide (item = p)) as [-> | Hne].
      * rewrite bool_decide_eq_true_2 by done.
        rewrite lookup_alter_eq, filter_cons_True by done.
        destruct (h !! p); simpl; [| done].
        rewrite incTickWaited_add. do 2 f_equal. lia.
      * rewrite filter_cons_False by done.
        destruct (bool_decide (item <> cur)); [| done].
        by rewrite lookup_alter_ne.
Qed.

(** X10. incTickToThreads calls incTickWaited(1) once for every entry of
    the three bands that is not the current thread: the wait counter of a
    thread rises by the number of entries that hold it, so by 2 for a thread
    that is listed twice, and the current thread is left alone however
    often it is listed.  [amount] plays no part. *)
Theorem X10_incTickToThreads_counts_entries amount s :
  bands_live s ->
  exists s',
    incTickToThreads amount s = Ok tt s' /\
    (forall p,
       heap s' !! p
       = incTickWaited (if decide (p = currentThread s) then 0
                        else Z.of_nat (entries p (bands s))) <$> heap s !! p) /\
    (forall p t, heap s !! p = Some t ->
       exists t', heap s' !! p = Some t' /\
         tickWaited t'
         = tickWaited t + (if decide (p = currentThread s) then 0
                           else Z.of_nat (entries p (bands s)))).
Proof.
  intros Hlive. eexists. split; [by apply incTickToThreads_exec |].
  proj_simpl. split.
  - intros p. apply tick_store_count.
  - intros p t Ht. rewrite tick_store_count, Ht. simpl. by eexists.
Qed.

(** ** Run *)

(** What the part of Run before SWITCH leaves, for either value of
    [finishing]. *)
Lemma Run_dispatch_wp s nextThread finishing tn told :
  level s = IntOff ->
  heap s !! nextThread = Some tn ->
  heap s !! currentThread s = Some told ->
  CheckOverflow (saved told) = true ->
  (finishing = true -> toBeDestroyed s = None) ->
  wp (Run_dispatch nextThread finishing)
     (fun _ s' =>
        currentThread s' = nextThread /\
        toBeDestroyed s'
        = (if finishing then Some (currentThread s) else toBeDestroyed s) /\
        deleted s' = deleted s /\
        L1 s' = L1 s /\ L2 s' = L2 s /\ L3 s' = L3 s /\
        heap s' !! nextThread
        = Some (setStatus RUNNING
                  (if decide (nextThread = currentThread s)
                   then saved told else tn)) /\
        (nextThread <> currentThread s ->
         heap s' !! currentThread s = Some (saved told)) /\
        (forall p, p <> nextThread -> p <> currentThread s ->
                   heap s' !! p = heap s !! p)) s.
Proof.
  intros Hl Hn Ho Hover Hslot. unfold Run_dispatch.
  assert (Hlast : forall s1 : State,
    heap s1 !! currentThread s = Some (saved told) ->
    (forall p, p <> currentThread s -> heap s1 !! p = heap s !! p) ->
    toBeDestroyed s1
    = (if finishing then Some (currentThread s) else toBeDestroyed s) ->
    deleted s1 = deleted s ->
    L1 s1 = L1 s -> L2 s1 = L2 s -> L3 s1 = L3 s ->
    wp (to <- deref (currentThread s) ;;
        ASSERT (CheckOverflow to) ;;;
        modify (with_currentThread nextThread) ;;;
        call nextThread (setStatus RUNNING))
       (fun _ s' =>
          currentThread s' = nextThread /\
          toBeDestroyed s'
          = (if finishing then Some (currentThread s) else toBeDestroyed s) /\
          deleted s' = deleted s /\
          L1 s' = L1 s /\ L2 s' = L2 s /\ L3 s' = L3 s /\
          heap s' !! nextThread
          = Some (setStatus RUNNING
                    (if decide (nextThread = currentThread s)
                     then saved told else tn)) /\
          (nextThread <> currentThread s ->
           heap s' !! currentThread s = Some (saved told)) /\
          (forall p, p <> nextThread -> p <> currentThread s ->
                     heap s' !! p = heap s !! p)) s1).
  { intros s1 Hold Hrest Htbd Hdel K1 K2 K3.
    assert (Hnext : heap s1 !! nextThread
                    = Some (if decide (nextThread = currentThread s)
                            then saved told else tn)).
    { destruct (decide (nextThread = currentThread s)) as [-> | Hne];
        [done | by rewrite Hrest]. }
    wp_step. wp_step. wp_step. wp_step; [exact Hover |].
    wp_step. wp_step. eapply wp_call; [proj_simpl; exact Hnext |].
    proj_simpl. repeat split; try done.
    - by rewrite lookup_insert_eq.
    - intros Hne. by rewrite lookup_insert_ne.
    - intros p Hp1 Hp2. rewrite lookup_insert_ne by done. by apply Hrest. }
  assert (Hsaved : forall s0 : State,
    heap s0 = heap s ->
    toBeDestroyed s0
    = (if finishing then Some (currentThread s) else toBeDestroyed s) ->
    deleted s0 = deleted s ->
    L1 s0 = L1 s -> L2 s0 = L2 s -> L3 s0 = L3 s ->
    wp (if bool_decide (space told = None) then ret tt
        else call (currentThread s) SaveUserState ;;;
             call (currentThread s) AddrSpace_SaveState)
       (fun _ s1 =>
          heap s1 !! currentThread s = Some (saved told) /\
          (forall p, p <> currentThread s -> heap s1 !! p = heap s !! p) /\
          toBeDestroyed s1
          = (if finishing then Some (currentThread s) else toBeDestroyed s) /\
          deleted s1 = deleted s /\
          L1 s1 = L1 s /\ L2 s1 = L2 s /\ L3 s1 = L3 s) s0).
  { intros s0 Hh Htbd Hdel K1 K2 K3. unfold saved.
    destruct (bool_decide (space told = None)).
    - wp_step. rewrite Hh. by repeat split.
    - wp_step. eapply wp_call; [by rewrite Hh |]. proj_simpl.
      eapply wp_call; [proj_simpl; apply lookup_insert_eq |]. proj_simpl.
      repeat split; try done.
      + by rewrite lookup_insert_eq.
      + intros p Hp. by rewrite !lookup_insert_ne, Hh. }
  destruct (dumpLogToFile s) eqn:Hdump; repeat wp_step;
    try (by rewrite Hl);
    destruct finishing; repeat wp_step;
    try (by rewrite Hslot; [apply bool_decide_eq_true_2 |]);
    (eapply wp_mono; [by apply Hsaved |]);
    intros _ s1 (Hold & Hrest & Htbd & Hdel & K1 & K2 & K3);
    by apply Hlast.
Qed.

(** X11. Run, up to SWITCH and when its checks pass, makes [nextThread] the
    current thread and marks it RUNNING, leaves the outgoing thread with its
    user state saved, and touches neither the ready lists nor any other
    thread.  The pending-destruction slot receives the outgoing thread when
    [finishing] is set and is left as it was otherwise; no thread is deleted
    on this side of SWITCH. *)
Theorem X11_Run_dispatch_hands_over s nextThread finishing tn told :
  level s = IntOff ->
  heap s !! nextThread = Some tn ->
  heap s !! currentThread s = Some told ->
  CheckOverflow (saved told) = true ->
  (finishing = true -> toBeDestroyed s = None) ->
  exists s',
    Run_dispatch nextThread finishing s = Ok tt s' /\
    currentThread s' = nextThread /\
    toBeDestroyed s'
    = (if finishing then Some (currentThread s) else toBeDestroyed s) /\
    deleted s' = deleted s /\
    L1 s' = L1 s /\ L2 s' = L2 s /\ L3 s' = L3 s /\
    heap s' !! nextThread
    = Some (setStatus RUNNING
              (if decide (nextThread = currentThread s)
               then saved told else tn)) /\
    (nextThread <> currentThread s ->
     heap s' !! currentThread s = Some (saved told)) /\
    (forall p, p <> nextThread -> p <> currentThread s ->
               heap s' !! p = heap s !! p).
Proof.
  intros Hl Hn Ho Hover Hslot.
  destruct (Run_dispatch_wp s nextThread finishing tn told)
    as ([] & s' & E & HQ); try done.
  by exists s'.
Qed.

Lemma bind_fails {A B} (m : Sched A) (k : A -> Sched B) s :
  wp m (fun a s1 => k a s1 = AssertFailed) s -> bind m k s = AssertFailed.
Proof. intros (a & s1 & E & Hk). unfold bind. by rewrite E. Qed.

Lemma Run_dispatch_overflow s nextThread finishing tn told :
  level s = IntOff ->
  heap s !! nextThread = Some tn ->
  heap s !! currentThread s = Some told ->
  (finishing = true -> toBeDestroyed s = None) ->
  CheckOverflow (saved told) = false ->
  Run_dispatch nextThread finishing s = AssertFailed.
Proof.
  intros Hl Hn Ho Hslot Hover.
  unfold Run_dispatch. unfold saved in Hover.
  destruct (dumpLogToFile s) eqn:Hdump;
    repeat (apply bind_fails; repeat wp_step); try (by rewrite Hl);
    destruct finishing; repeat wp_step;
    try (by rewrite Hslot; [apply bool_decide_eq_true_2 |]);
    repeat (apply bind_fails; repeat wp_step);
    destruct (bool_decide (space told = None)); repeat wp_step;
    try apply lookup_insert_eq;
    apply bind_fails;
    (eapply wp_deref;
     [proj_simpl; first [exact Ho | apply lookup_insert_eq] |]);
    unfold bind, ASSERT; by rewrite Hover.
Qed.

(** X12. With interrupts off and both threads live, the part of Run before
    SWITCH fails exactly in two cases: [finishing] is set while the
    pending-destruction slot is occupied, or the stack check of the outgoing
    thread, made on its record after its user state was saved, does not
    pass.  In every other case it completes. *)
Theorem X12_Run_dispatch_fails_exactly_when s nextThread finishing tn told :
  level s = IntOff ->
  heap s !! nextThread = Some tn ->
  heap s !! currentThread s = Some told ->
  (Run_dispatch nextThread finishing s = AssertFailed <->
   (finishing = true /\ toBeDestroyed s <> None) \/
   CheckOverflow (saved told) = false) /\
  (Run_dispatch nextThread finishing s <> AssertFailed ->
   exists s', Run_dispatch nextThread finishing s = Ok tt s').
Proof.
  intros Hl Hn Ho.
  assert (Hok : ~ ((finishing = true /\ toBeDestroyed s <> None) \/
                   CheckOverflow (saved told) = false) ->
                exists s', Run_dispatch nextThread finishing s = Ok tt s').
  { intros Hgood.
    destruct (Run_dispatch_wp s nextThread finishing tn told)
      as ([] & s' & E & _); try done; [| | by exists s'].
    - destruct (CheckOverflow (saved told)); [done | tauto].
    - intros ->. destruct (toBeDestroyed s) eqn:E; [| done].
      destruct Hgood. left. by split. }
  assert (Hfail : (finishing = true /\ toBeDestroyed s <> None) \/
                  CheckOverflow (saved told) = false ->
                  Run_dispatch nextThread finishing s = AssertFailed).
  { intros [[-> Hocc] | Hover].
    - by eapply Run_dispatch_occupied.
    - destruct (decide (finishing = true /\ toBeDestroyed s <> None))
        as [[-> Hocc] | Hfree].
      + by eapply Run_dispatch_occupied.
      + eapply Run_dispatch_overflow; try done.
        intros ->. destruct (toBeDestroyed s); [| done].
        destruct Hfree. by split. }
  split; [split; [| exact Hfail] |].
  - intros Efail.
    destruct (decide ((finishing = true /\ toBeDestroyed s <> None) \/
                      CheckOverflow (saved told) = false)) as [? | Hgood];
      [done |].
    destruct (Hok Hgood) as [s' E]. congruence.
  - intros Hnot. apply Hok. intros Hbad. by apply Hnot, Hfail.
Qed.



(** X14. The thread that sits in the pending-destruction slot must not be
    switched back to: the rest of Run deletes it in CheckToBeDestroyed and
    then reads its [space] member, a read of a deleted object. *)
Theorem X14_resuming_the_doomed_thread_reads_deleted_object s r tr :
  level s = IntOff ->
  toBeDestroyed s = Some r ->
  heap s !! r = Some tr ->
  Run_resume r s = BadPointer.
Proof.
  intros Hl Hslot Hr.
  unfold Run_resume, bind at 1 2 3, gets, ASSERT. rewrite Hl.
  cbn [IntStatus_eqb]. rewrite (CheckToBeDestroyed_occupied s r tr) by done.
  unfold bind, deref. proj_simpl. by rewrite lookup_delete_eq.
Qed.

(** ** Admission followed by selection *)

(** X15. A thread admitted while all bands are empty is the thread the
    next FindNextToRun returns, and the bands are empty again afterwards,
    provided that the thread is not the current thread and that, if it goes
    to band 1, its estimate is below 0x7fffffff. *)
Theorem X15_admitted_alone_is_selected s thread t tc :
  level s = IntOff ->
  bands s = [] ->
  heap s !! thread = Some t ->
  heap s !! currentThread s = Some tc ->
  thread <> currentThread s ->
  (100 <= priority t -> executionTime t < 0x7fffffff) ->
  exists s1 s2,
    ReadyToRun thread s = Ok tt s1 /\
    bands s1 = [thread] /\
    FindNextToRun s1 = Ok (Some thread) s2 /\
    bands s2 = [].
Proof.
  intros Hl Hempty Ht Hc Hne Hest.
  unfold bands in Hempty. apply app_eq_nil in Hempty as [K1 Hempty].
  apply app_eq_nil in Hempty as [K2 K3].
  destruct (ReadyToRun_wp s thread t Hl Ht)
    as ([] & s1 & E1 & Hh1 & Hl1 & H11 & H12 & H13).
  cbn zeta in *. rewrite K1 in H11. rewrite K2 in H12. rewrite K3 in H13.
  assert (Hcur1 : currentThread s1 = currentThread s)
    by (by apply (field_ReadyToRun currentThread) in E1).
  assert (Hc1 : heap s1 !! currentThread s1 = Some tc)
    by (by rewrite Hcur1, Hh1, lookup_insert_ne).
  assert (Hb1 : bands s1 = [thread]).
  { unfold bands. rewrite H11, H12, H13. unfold band_of_priority.
    by destruct (priority t >=? 100), (priority t >=? 50). }
  assert (Hlive1 : bands_live s1).
  { unfold bands_live. rewrite Hb1. repeat constructor.
    unfold live. rewrite Hh1, lookup_insert_eq. by eexists. }
  assert (Hkeys : heap (at_selection s1) !! thread
                  = Some (setStatus READY t)).
  { rewrite (at_selection_heap s1 tc Hc1), lookup_insert_ne by congruence.
    by rewrite Hh1, lookup_insert_eq. }
  assert (Hkey_e : getExecutionTime (at_selection s1) thread
                   = executionTime t)
    by (unfold getExecutionTime; by rewrite Hkeys).
  assert (Hkey_p : getPriority (at_selection s1) thread = priority t)
    by (unfold getPriority; by rewrite Hkeys).
  destruct (FindNextToRun_cases s1 tc) as (r & s2 & E2 & Hcases);
    [congruence | done | done |].
  exists s1, s2. split; [exact E1 |]. split; [exact Hb1 |].
  destruct Hcases as [(Hnil & _) | (_ & _ & Hsel)]; [by rewrite Hb1 in Hnil |].
  unfold from_band1, from_band2, from_band3, band1_gives_nothing,
    band2_gives_nothing, first_least, first_greatest in Hsel.
  destruct (at_selection_lists s1) as (E1' & E2' & E3').
  rewrite E1', E2', E3', H11, H12, H13 in Hsel.
  unfold bands, band_of_priority in *.
  destruct (Z.geb_spec (priority t) 100) as [Hge100 | Hlt100];
    [| destruct (Z.geb_spec (priority t) 50) as [Hge50 | Hlt50]];
    cbn [Nat.eqb] in Hsel.
  - destruct Hsel as [(i & p & -> & (Hi & _) & _ & R1 & R2 & R3)
                     | [(Hn1 & _) | (Hn1 & _)]].
    + destruct i as [|i]; [| by destruct i]. injection Hi as <-.
      by rewrite R1, R2, R3.
    + specialize (Hn1 thread ltac:(by left)). lia.
    + specialize (Hn1 thread ltac:(by left)). lia.
  - destruct Hsel as [(i & p & _ & (Hi & _) & _)
                     | [(_ & i & p & -> & (Hi & _) & _ & R2 & R1 & R3)
                       | (_ & Hn2 & _)]].
    + by destruct i.
    + destruct i as [|i]; [| by destruct i]. injection Hi as <-.
      by rewrite R1, R2, R3.
    + specialize (Hn2 thread ltac:(by left)). lia.
  - destruct Hsel as [(i & p & _ & (Hi & _) & _)
                     | [(_ & i & p & _ & (Hi & _) & _)
                       | (_ & _ & -> & R3 & R1 & R2)]].
    + by destruct i.
    + by destruct i.
    + by rewrite R1, R2, R3.
Qed.

(** X16. Band 3 is first in, first out: with bands 1 and 2 empty, as many
    calls of FindNextToRun as band 3 has entries return its entries in the
    order of the list and leave all bands empty. *)
Theorem X16_band3_first_in_first_out (l : list nat) :
  forall s tc,
    level s = IntOff ->
    L1 s = [] -> L2 s = [] -> L3 s = l ->
    Forall (live s) l ->
    heap s !! currentThread s = Some tc ->
    exists s', drain (length l) s = Ok (map Some l) s' /\ bands s' = [].
Proof.
  induction l as [|p l IH]; intros s tc Hl K1 K2 K3 Hlive Hc.
  - exists s. split; [done |]. unfold bands. by rewrite K1, K2, K3.
  - assert (Hblive : bands_live s).
    { unfold bands_live, bands. by rewrite K1, K2, K3. }
    destruct (FindNextToRun_cases s tc Hl Hblive Hc)
      as (r & s1 & E1 & [(Hnil & _) | (_ & Hh1 & Hsel)]).
    { unfold bands in Hnil. by rewrite K1, K2, K3 in Hnil. }
    unfold from_band1, from_band2, from_band3, first_least, first_greatest
      in Hsel.
    destruct (at_selection_lists s) as (E1' & E2' & E3').
    rewrite E1', E2', E3', K1, K2, K3 in Hsel.
    destruct Hsel as [(i & q & _ & (Hi & _) & _)
                     | [(_ & i & q & _ & (Hi & _) & _)
                       | (_ & _ & -> & R3 & R1 & R2)]];
      [by destruct i | by destruct i |].
    assert (Hl1 : level s1 = IntOff)
      by (apply (field_FindNextToRun level) in E1; [congruence | done ..]).
    assert (Hcur1 : currentThread s1 = currentThread s)
      by (by apply (field_FindNextToRun currentThread) in E1).
    apply Forall_cons in Hlive as [_ Hlive].
    destruct (IH s1 (closed_out tc)) as (s' & E' & Hb'); try done.
    + eapply Forall_impl; [exact Hlive |]. intros x Hx.
      unfold live in *. rewrite Hh1, lookup_insert_is_Some'. auto.
    + by rewrite Hcur1, Hh1, lookup_insert_eq.
    + exists s'. split; [| exact Hb'].
      simpl. unfold bind at 1. rewrite E1. unfold bind. by rewrite E'.
Qed.

(** ** Fields the queue operations leave alone *)

(** X17. ReadyToRun, FindNextToRun, Print, maintainQueues and
    incTickToThreads never change which thread is current, the interrupt
    level, the pending-destruction slot, the tick count or the choice of
    log, and never delete a thread: only Run and CheckToBeDestroyed do. *)
Theorem X17_queue_calls_leave_kernel_fields c s s' :
  queue_call c = true ->
  perform c s = Ok tt s' ->
  currentThread s' = currentThread s /\
  level s' = level s /\
  toBeDestroyed s' = toBeDestroyed s /\
  deleted s' = deleted s /\
  totalTicks s' = totalTicks s /\
  dumpLogToFile s' = dumpLogToFile s.
Proof.
  intros Hc E.
  split; [| split; [| split; [| split; [| split]]]].
  - refine (field_queue_call currentThread _ _ _ _ _ _ c Hc s tt s' E); done.
  - refine (field_queue_call level _ _ _ _ _ _ c Hc s tt s' E); done.
  - refine (field_queue_call toBeDestroyed _ _ _ _ _ _ c Hc s tt s' E); done.
  - refine (field_queue_call deleted _ _ _ _ _ _ c Hc s tt s' E); done.
  - refine (field_queue_call totalTicks _ _ _ _ _ _ c Hc s tt s' E); done.
  - refine (field_queue_call dumpLogToFile _ _ _ _ _ _ c Hc s tt s' E); done.
Qed.

(** ** A new scheduler *)

(** X18. A scheduler that was just constructed has no ready thread, an
    empty slot and a clear dirty flag: with interrupts off FindNextToRun
    returns none, maintainQueues returns 0, and these calls,
    incTickToThreads and CheckToBeDestroyed leave the state as it is. *)
Theorem X18_new_scheduler_is_idle cur ticks toFile h amount :
  let s := Scheduler_new cur IntOff ticks toFile h in
  bands s = [] /\ toBeDestroyed s = None /\ getDirty s = false /\
  FindNextToRun s = Ok None s /\
  maintainQueues s = Ok 0 s /\
  incTickToThreads amount s = Ok tt s /\
  CheckToBeDestroyed s = Ok tt s.
Proof. cbn zeta. by repeat split. Qed.

(** ** Admission and aging use the same boundaries *)

(** X19. ReadyToRun places a thread where maintainQueues would leave it:
    when every thread of band 3 is below 50 and every thread of band 2 is
    below 100, an admission followed by maintainQueues moves nothing and
    the value is 0. *)
Theorem X19_admission_needs_no_aging s thread t :
  level s = IntOff ->
  heap s !! thread = Some t ->
  Forall (live s) (L2 s) ->
  Forall (live s) (L3 s) ->
  Forall (fun p => getPriority s p < 100) (L2 s) ->
  Forall (fun p => getPriority s p < 50) (L3 s) ->
  exists s1 s2,
    ReadyToRun thread s = Ok tt s1 /\
    maintainQueues s1 = Ok 0 s2 /\
    L1 s2 = L1 s1 /\ L2 s2 = L2 s1 /\ L3 s2 = L3 s1.
Proof.
  intros Hl Ht Hl2 Hl3 Hs2 Hs3.
  destruct (ReadyToRun_wp s thread t Hl Ht)
    as ([] & s1 & E1 & Hh1 & _ & H11 & H12 & H13).
  cbn zeta in *.
  assert (Hprio : forall p, getPriority s1 p = getPriority s p)
    by (intros p; by eapply getPriority_setStatus).
  assert (Hpt : getPriority s thread = priority t)
    by (unfold getPriority; by rewrite Ht).
  assert (Hlive : forall p, live s p -> live s1 p).
  { intros p Hp. unfold live in *. rewrite Hh1, lookup_insert_is_Some'. auto. }
  assert (Hlt : live s1 thread).
  { unfold live. rewrite Hh1, lookup_insert_eq. by eexists. }
  assert (Hband : (band_of_priority (priority t) = 1%nat /\ 100 <= priority t)
                  \/ (band_of_priority (priority t) = 2%nat /\
                      50 <= priority t < 100)
                  \/ (band_of_priority (priority t) = 3%nat /\
                      priority t < 50)).
  { unfold band_of_priority.
    destruct (Z.geb_spec (priority t) 100); [by left |].
    destruct (Z.geb_spec (priority t) 50);
      [right; left | right; right]; split; try done; lia. }
  assert (Hs2' : Forall (fun p => ~ 100 <= getPriority s1 p) (L2 s1)).
  { assert (Hold : Forall (fun p => ~ 100 <= getPriority s1 p) (L2 s)).
    { eapply Forall_impl; [exact Hs2 |]. intros p Hp. cbn beta in *.
      rewrite Hprio. lia. }
    rewrite H12. destruct (Nat.eqb _ 2) eqn:Eb; [| exact Hold].
    apply Forall_app. split; [exact Hold |]. apply Forall_singleton.
    rewrite Hprio, Hpt.
    destruct Hband as [[Hb _] | [[Hb ?] | [Hb _]]]; rewrite Hb in Eb;
      try discriminate; lia. }
  assert (Hs3' : Forall (fun p => ~ 50 <= getPriority s1 p) (L3 s1)).
  { assert (Hold : Forall (fun p => ~ 50 <= getPriority s1 p) (L3 s)).
    { eapply Forall_impl; [exact Hs3 |]. intros p Hp. cbn beta in *.
      rewrite Hprio. lia. }
    rewrite H13. destruct (Nat.eqb _ 3) eqn:Eb; [| exact Hold].
    apply Forall_app. split; [exact Hold |]. apply Forall_singleton.
    rewrite Hprio, Hpt.
    destruct Hband as [[Hb _] | [[Hb _] | [Hb ?]]]; rewrite Hb in Eb;
      try discriminate; lia. }
  assert (Hl2' : Forall (live s1) (L2 s1)).
  { assert (Hold : Forall (live s1) (L2 s))
      by (eapply Forall_impl; [exact Hl2 | exact Hlive]).
    rewrite H12. destruct (Nat.eqb _ 2); [| exact Hold].
    apply Forall_app. split; [exact Hold |]. by apply Forall_singleton. }
  assert (Hl3' : Forall (live s1) (L3 s1)).
  { assert (Hold : Forall (live s1) (L3 s))
      by (eapply Forall_impl; [exact Hl3 | exact Hlive]).
    rewrite H13. destruct (Nat.eqb _ 3); [| exact Hold].
    apply Forall_app. split; [exact Hold |]. by apply Forall_singleton. }
  destruct (maintainQueues_wp s1 Hl2' Hl3')
    as (r & s2 & E2 & _ & R1 & R2 & R3 & Hr).
  cbn zeta in *.
  rewrite (filter_none (fun p => 50 <= getPriority s1 p) (L3 s1)) in * by done.
  rewrite app_nil_r in *.
  rewrite (filter_none (fun p => 100 <= getPriority s1 p) (L2 s1)) in *
    by done.
  rewrite app_nil_r in *. rewrite Hr in E2.
  exists s1, s2. split; [exact E1 |]. split; [exact E2 |].
  split; [exact R1 |]. split.
  - rewrite R2. by apply filter_all.
  - rewrite R3. by apply filter_all.
Qed.

End MoreFacts.

(** ** Instances of the further properties *)

Lemma X1_witness :
  level burst_state = IntOff /\
  bands_live burst_state /\
  heap burst_state !! currentThread burst_state = Some main_thread /\
  exists s',
    @FindNextToRun sample_externals burst_state = Ok (Some 2%nat) s' /\
    L1 s' = [1%nat; 3%nat] /\ L2 s' = [4%nat] /\ L3 s' = [].
Proof.
  assert (Hlive : bands_live burst_state)
    by (repeat constructor; by eexists).
  split; [reflexivity |]. split; [exact Hlive |]. split; [reflexivity |].
  destruct (@X1_band1_shortest_estimate_first sample_externals burst_state
              main_thread eq_refl Hlive eq_refl)
    as (i & p & s' & E & (Hi & Hmin & Hfirst) & H1 & H2 & H3).
  { exists 1%nat. split; [by left | by vm_compute]. }
  assert (E1 : getExecutionTime
                 (@at_selection sample_externals burst_state) 1%nat = 7)
    by (by vm_compute).
  assert (E2 : getExecutionTime
                 (@at_selection sample_externals burst_state) 2%nat = 3)
    by (by vm_compute).
  assert (E3 : getExecutionTime
                 (@at_selection sample_externals burst_state) 3%nat = 3)
    by (by vm_compute).
  destruct i as [|[|[|i]]]; vm_compute in Hi; try discriminate;
    injection Hi as <-.
  - specialize (Hmin 1%nat 2%nat eq_refl). rewrite E1, E2 in Hmin. lia.
  - exists s'. split; [exact E |]. by rewrite H1, H2, H3.
  - specialize (Hfirst 1%nat 2%nat eq_refl ltac:(lia)).
    rewrite E2, E3 in Hfirst. lia.
Defined.

Lemma X2_witness :
  (level sentinel_alone_state = IntOff /\
   bands_live sentinel_alone_state /\
   heap sentinel_alone_state !! currentThread sentinel_alone_state
   = Some main_thread /\
   bands sentinel_alone_state = [1%nat] /\
   exists s',
     @FindNextToRun sample_externals sentinel_alone_state = Ok None s') /\
  (level sentinel_state = IntOff /\
   bands_live sentinel_state /\
   heap sentinel_state !! currentThread sentinel_state = Some main_thread /\
   exists r s',
     @FindNextToRun sample_externals sentinel_state = Ok r s' /\
     r <> None) /\
  (level idle_state = IntOff /\
   bands_live idle_state /\
   heap idle_state !! currentThread idle_state = Some main_thread /\
   @FindNextToRun sample_externals idle_state = Ok None idle_state).
Proof.
  split; [| split].
  - (* a band-1 entry at the largest estimate, nothing else: none *)
    assert (Hlive : bands_live sentinel_alone_state)
      by (repeat constructor; by eexists).
    split; [reflexivity |]. split; [exact Hlive |]. split; [reflexivity |].
    split; [reflexivity |].
    destruct (@X2_none_exactly_when_no_band_gives sample_externals
                sentinel_alone_state main_thread eq_refl Hlive eq_refl)
      as (r & s' & E & Hiff & _).
    assert (Hr : r = None).
    { apply Hiff. split; [| split; [| reflexivity]].
      - intros q Hq. apply elem_of_cons in Hq as [-> | Hq]; [by vm_compute |].
        by apply elem_of_nil in Hq.
      - intros q Hq. by apply elem_of_nil in Hq. }
    subst r. by exists s'.
  - (* the same entry in band 1 and a thread of priority 70 in band 2 *)
    assert (Hlive : bands_live sentinel_state)
      by (repeat constructor; by eexists).
    split; [reflexivity |]. split; [exact Hlive |]. split; [reflexivity |].
    destruct (@X2_none_exactly_when_no_band_gives sample_externals
                sentinel_state main_thread eq_refl Hlive eq_refl)
      as (r & s' & E & Hiff & _).
    exists r, s'. split; [exact E |]. intros Hnone.
    apply Hiff in Hnone as (_ & Hn2 & _).
    assert (E2 : getPriority (@at_selection sample_externals sentinel_state)
                   2%nat = 70) by (by vm_compute).
    specialize (Hn2 2%nat ltac:(by left)). rewrite E2 in Hn2. lia.
  - (* all bands empty *)
    assert (Hlive : bands_live idle_state) by constructor.
    split; [reflexivity |]. split; [exact Hlive |]. split; [reflexivity |].
    destruct (@X2_none_exactly_when_no_band_gives sample_externals idle_state
                main_thread eq_refl Hlive eq_refl)
      as (r & s' & E & _ & Hempty).
    destruct (Hempty eq_refl) as [-> ->]. exact E.
Defined.

Lemma X3_witness :
  level aged_state = IntOff /\
  bands_live aged_state /\
  heap aged_state !! currentThread aged_state = Some main_thread /\
  NoDup (bands aged_state) /\
  exists r s',
    @FindNextToRun sample_externals aged_state = Ok r s' /\
    NoDup (bands s') /\ bands_live s'.
Proof.
  assert (Hlive : bands_live aged_state)
    by (repeat constructor; by eexists).
  assert (Hnodup : NoDup (bands aged_state)).
  { refine (bool_decide_unpack _ _). by vm_compute. }
  split; [reflexivity |]. split; [exact Hlive |]. split; [reflexivity |].
  split; [exact Hnodup |].
  destruct (@X3_returned_thread_leaves_bands sample_externals aged_state
              main_thread eq_refl Hlive eq_refl Hnodup)
    as (r & s' & E & Hn & Hl & _).
  by exists r, s'.
Defined.

Lemma X4_witness :
  Forall (live aged_state) (L2 aged_state) /\
  Forall (live aged_state) (L3 aged_state) /\
  exists r s',
    maintainQueues aged_state = Ok r s' /\ bands s' ≡ₚ bands aged_state.
Proof.
  assert (Hl2 : Forall (live aged_state) (L2 aged_state))
    by (repeat constructor; by eexists).
  assert (Hl3 : Forall (live aged_state) (L3 aged_state))
    by (repeat constructor; by eexists).
  split; [exact Hl2 |]. split; [exact Hl3 |].
  destruct (X4_maintainQueues_rearranges_entries aged_state Hl2 Hl3)
    as (r & s' & E & Hperm & _).
  by exists r, s'.
Defined.

Lemma X5_witness :
  Forall (live aged_state) (L2 aged_state) /\
  Forall (live aged_state) (L3 aged_state) /\
  exists r s' s'',
    maintainQueues aged_state = Ok r s' /\ maintainQueues s' = Ok 0 s''.
Proof.
  assert (Hl2 : Forall (live aged_state) (L2 aged_state))
    by (repeat constructor; by eexists).
  assert (Hl3 : Forall (live aged_state) (L3 aged_state))
    by (repeat constructor; by eexists).
  split; [exact Hl2 |]. split; [exact Hl3 |].
  destruct (X5_maintainQueues_settles aged_state Hl2 Hl3)
    as (r & s' & s'' & E & E' & _).
  by exists r, s', s''.
Defined.

Lemma X6_witness :
  Forall (live aged_state) (L2 aged_state) /\
  Forall (live aged_state) (L3 aged_state) /\
  exists r s',
    maintainQueues aged_state = Ok r s' /\
    (r = 0 <-> L1 s' = L1 aged_state /\ L2 s' = L2 aged_state /\
               L3 s' = L3 aged_state).
Proof.
  assert (Hl2 : Forall (live aged_state) (L2 aged_state))
    by (repeat constructor; by eexists).
  assert (Hl3 : Forall (live aged_state) (L3 aged_state))
    by (repeat constructor; by eexists).
  split; [exact Hl2 |]. split; [exact Hl3 |].
  destruct (X6_maintainQueues_zero_iff_nothing_moved aged_state Hl2 Hl3)
    as (r & s' & E & _ & Hiff).
  by exists r, s'.
Defined.

Lemma X8_witness :
  level enabled_state = IntOn /\
  ReadyToRun 0%nat enabled_state = AssertFailed /\
  @FindNextToRun sample_externals enabled_state = AssertFailed.
Proof.
  split; [reflexivity |].
  destruct (@X8_interrupts_enabled_is_fatal sample_externals enabled_state
              eq_refl) as (Hready & Hfind & _).
  split; [apply Hready | exact Hfind].
Defined.

Lemma X9_witness :
  level scenario_state = IntOff /\
  heap scenario_state !! 1%nat = Some (mkThread 1 BLOCKED 120 9 0 0 0 None) /\
  exists s',
    ReadyToRun 1%nat scenario_state = Ok tt s' /\
    cout s' = [LogInserting 100 1 1] /\ L1 s' = [1%nat].
Proof.
  split; [reflexivity |]. split; [reflexivity |].
  destruct (X9_admission_line_and_band scenario_state 1%nat
              (mkThread 1 BLOCKED 120 9 0 0 0 None) eq_refl eq_refl)
    as (s' & E & Hline & Hband & _).
  exists s'. split; [exact E |]. split; [apply Hline | exact Hband].
Defined.

Lemma X10_witness :
  bands_live doubled_state /\
  exists s',
    incTickToThreads 1 doubled_state = Ok tt s' /\
    heap s' !! 4%nat = Some (incTickWaited 2 (thread_of 4 110 1)).
Proof.
  assert (Hlive : bands_live doubled_state)
    by (repeat constructor; by eexists).
  split; [exact Hlive |].
  destruct (X10_incTickToThreads_counts_entries 1 doubled_state Hlive)
    as (s' & E & Hcount & _).
  exists s'. split; [exact E |]. by rewrite (Hcount 4%nat).
Defined.

Lemma X11_witness :
  level waiting_state = IntOff /\
  heap waiting_state !! 1%nat = Some (thread_of 1 10 4) /\
  heap waiting_state !! currentThread waiting_state = Some main_thread /\
  @CheckOverflow sample_externals (@saved sample_externals main_thread)
  = true /\
  exists s',
    @Run_dispatch sample_externals 1%nat false waiting_state = Ok tt s' /\
    currentThread s' = 1%nat /\ toBeDestroyed s' = None /\
    heap s' !! 1%nat = Some (setStatus RUNNING (thread_of 1 10 4)).
Proof.
  split; [reflexivity |]. split; [reflexivity |]. split; [reflexivity |].
  split; [reflexivity |].
  destruct (@X11_Run_dispatch_hands_over sample_externals waiting_state
              1%nat false (thread_of 1 10 4) main_thread
              eq_refl eq_refl eq_refl eq_refl ltac:(discriminate))
    as (s' & E & Hcur & Hslot & _ & _ & _ & _ & Hnext & _).
  exists s'. by repeat split.
Defined.

Lemma X12_witness :
  level waiting_state = IntOff /\
  heap waiting_state !! 1%nat = Some (thread_of 1 10 4) /\
  heap waiting_state !! currentThread waiting_state = Some main_thread /\
  exists s',
    @Run_dispatch sample_externals 1%nat true waiting_state = Ok tt s'.
Proof.
  split; [reflexivity |]. split; [reflexivity |]. split; [reflexivity |].
  destruct (@X12_Run_dispatch_fails_exactly_when sample_externals
              waiting_state 1%nat true (thread_of 1 10 4) main_thread
              eq_refl eq_refl eq_refl) as [Hiff Hok].
  apply Hok. intros Hfail. apply Hiff in Hfail as [[_ Hocc] | Hover];
    [by apply Hocc | discriminate].
Defined.


Lemma X14_witness :
  level doomed_state = IntOff /\
  toBeDestroyed doomed_state = Some 1%nat /\
  heap doomed_state !! 1%nat = Some (thread_of 1 10 4) /\
  @Run_resume sample_externals 1%nat doomed_state = BadPointer.
Proof.
  split; [reflexivity |]. split; [reflexivity |]. split; [reflexivity |].
  exact (@X14_resuming_the_doomed_thread_reads_deleted_object
           sample_externals doomed_state 1%nat (thread_of 1 10 4)
           eq_refl eq_refl eq_refl).
Defined.

Lemma X15_witness :
  level scenario_state = IntOff /\
  bands scenario_state = [] /\
  heap scenario_state !! 2%nat = Some (mkThread 2 BLOCKED 70 5 0 0 0 None) /\
  heap scenario_state !! currentThread scenario_state = Some main_thread /\
  exists s1 s2,
    ReadyToRun 2%nat scenario_state = Ok tt s1 /\
    @FindNextToRun sample_externals s1 = Ok (Some 2%nat) s2 /\
    bands s2 = [].
Proof.
  split; [reflexivity |]. split; [reflexivity |]. split; [reflexivity |].
  split; [reflexivity |].
  destruct (@X15_admitted_alone_is_selected sample_externals scenario_state
              2%nat (mkThread 2 BLOCKED 70 5 0 0 0 None) main_thread
              eq_refl eq_refl eq_refl eq_refl)
    as (s1 & s2 & E1 & _ & E2 & Hb); [discriminate | by vm_compute |].
  by exists s1, s2.
Defined.

Lemma X16_witness :
  level fifo_state = IntOff /\
  L1 fifo_state = [] /\ L2 fifo_state = [] /\
  L3 fifo_state = [1%nat; 2%nat; 3%nat] /\
  Forall (live fifo_state) [1%nat; 2%nat; 3%nat] /\
  heap fifo_state !! currentThread fifo_state = Some main_thread /\
  exists s',
    @drain sample_externals 3 fifo_state
    = Ok [Some 1%nat; Some 2%nat; Some 3%nat] s' /\
    bands s' = [].
Proof.
  assert (Hlive : Forall (live fifo_state) [1%nat; 2%nat; 3%nat])
    by (repeat constructor; by eexists).
  do 4 (split; [reflexivity |]). split; [exact Hlive |].
  split; [reflexivity |].
  exact (@X16_band3_first_in_first_out sample_externals
           [1%nat; 2%nat; 3%nat] fifo_state main_thread
           eq_refl eq_refl eq_refl eq_refl Hlive eq_refl).
Defined.

Lemma X17_witness :
  queue_call CallMaintainQueues = true /\
  @perform sample_externals CallMaintainQueues aged_state
  = Ok tt settled_state /\
  currentThread settled_state = currentThread aged_state /\
  toBeDestroyed settled_state = toBeDestroyed aged_state.
Proof.
  assert (E : @perform sample_externals CallMaintainQueues aged_state
              = Ok tt settled_state) by (by vm_compute).
  split; [reflexivity |]. split; [exact E |].
  destruct (@X17_queue_calls_leave_kernel_fields sample_externals
              CallMaintainQueues aged_state settled_state eq_refl E)
    as (Hcur & _ & Hslot & _).
  by split.
Defined.

Lemma X19_witness :
  level waiting_state = IntOff /\
  heap waiting_state !! 0%nat = Some main_thread /\
  Forall (live waiting_state) (L2 waiting_state) /\
  Forall (live waiting_state) (L3 waiting_state) /\
  Forall (fun p => getPriority waiting_state p < 100) (L2 waiting_state) /\
  Forall (fun p => getPriority waiting_state p < 50) (L3 waiting_state) /\
  exists s1 s2,
    ReadyToRun 0%nat waiting_state = Ok tt s1 /\
    maintainQueues s1 = Ok 0 s2.
Proof.
  assert (Hl2 : Forall (live waiting_state) (L2 waiting_state))
    by constructor.
  assert (Hl3 : Forall (live waiting_state) (L3 waiting_state))
    by (repeat constructor; by eexists).
  assert (Hs2 : Forall (fun p => getPriority waiting_state p < 100)
                  (L2 waiting_state)) by constructor.
  assert (Hs3 : Forall (fun p => getPriority waiting_state p < 50)
                  (L3 waiting_state))
    by (repeat constructor; by vm_compute).
  split; [reflexivity |]. split; [reflexivity |].
  split; [exact Hl2 |]. split; [exact Hl3 |].
  split; [exact Hs2 |]. split; [exact Hs3 |].
  destruct (X19_admission_needs_no_aging waiting_state 0%nat main_thread
              eq_refl eq_refl Hl2 Hl3 Hs2 Hs3)
    as (s1 & s2 & E1 & E2 & _).
  by exists s1, s2.
Defined.
